(** * word_to_excel: quiz paragraphs to a typed question table

    A shallow embedding of [bot_st1.0.1.py] and [bot_st1.0.2.py]:
    the paragraph segmenter [extract_questions_from_docx], the type
    heuristic [determine_question_type], the sheet builder
    [write_to_excel] and the control flow of [main].

    Python [str] values are sequences of Unicode code points, so a string
    is a [list N] here.  The character database of the interpreter
    ([str.isspace], the decimal digits behind [\d], [str.upper]) is the
    one of CPython 3.11, Unicode 14.0.0. *)

From Stdlib Require Import NArith List Lia Permutation Sorted.
From Stdlib Require String Ascii.
From stdpp Require Import gmap sorting list.
Import String.StringSyntax.
Delimit Scope string_scope with string.

Abbreviation char := N (only parsing).
Abbreviation str := (list N) (only parsing).

(** ** Source literals

    The source files are UTF-8; [u8] decodes a literal copied from them
    into its code points. *)

Fixpoint utf8_decode (bs : list N) : str :=
  match bs with
  | [] => []
  | b0 :: r0 =>
    if (b0 <? 128)%N then b0 :: utf8_decode r0
    else match r0 with
    | [] => [b0]
    | b1 :: r1 =>
      if (b0 <? 224)%N then ((b0 - 192) * 64 + (b1 - 128))%N :: utf8_decode r1
      else match r1 with
      | [] => [b0; b1]
      | b2 :: r2 =>
        if (b0 <? 240)%N
        then ((b0 - 224) * 4096 + (b1 - 128) * 64 + (b2 - 128))%N
               :: utf8_decode r2
        else match r2 with
        | [] => [b0; b1; b2]
        | b3 :: r3 =>
          ((b0 - 240) * 262144 + (b1 - 128) * 4096
           + (b2 - 128) * 64 + (b3 - 128))%N :: utf8_decode r3
        end
      end
    end
  end.

Definition u8 (s : String.string) : str :=
  utf8_decode (map Ascii.N_of_ascii (String.list_ascii_of_string s)).
Arguments u8 s%_string.

(** ** The interpreter's character database *)

Definition whitespace_table : list N :=
  [ 9; 10; 11; 12; 13; 28; 29; 30; 31; 32; 133; 160; 5760; 8192; 8193; 8194;
    8195; 8196; 8197; 8198; 8199; 8200; 8201; 8202; 8232; 8233; 8239; 8287;
    12288 ]%N.

Definition decimal_table : list (N * N) :=
  [ (48, 57); (1632, 1641); (1776, 1785); (1984, 1993); (2406, 2415); (2534,
    2543); (2662, 2671); (2790, 2799); (2918, 2927); (3046, 3055); (3174,
    3183); (3302, 3311); (3430, 3439); (3558, 3567); (3664, 3673); (3792,
    3801); (3872, 3881); (4160, 4169); (4240, 4249); (6112, 6121); (6160,
    6169); (6470, 6479); (6608, 6617); (6784, 6793); (6800, 6809); (6992,
    7001); (7088, 7097); (7232, 7241); (7248, 7257); (42528, 42537); (43216,
    43225); (43264, 43273); (43472, 43481); (43504, 43513); (43600, 43609);
    (44016, 44025); (65296, 65305); (66720, 66729); (68912, 68921); (69734,
    69743); (69872, 69881); (69942, 69951); (70096, 70105); (70384, 70393);
    (70736, 70745); (70864, 70873); (71248, 71257); (71360, 71369); (71472,
    71481); (71904, 71913); (72016, 72025); (72784, 72793); (73040, 73049);
    (73120, 73129); (92768, 92777); (92864, 92873); (93008, 93017); (120782,
    120831); (123200, 123209); (123632, 123641); (125264, 125273); (130032,
    130041) ]%N.

Definition upper_runs : list (N * N * N * N) :=
  [ (97, 122, 1, 65); (181, 181, 1, 924); (224, 246, 1, 192); (248, 254, 1,
    216); (255, 255, 1, 376); (257, 303, 2, 256); (305, 305, 1, 73); (307,
    311, 2, 306); (314, 328, 2, 313); (331, 375, 2, 330); (378, 382, 2,
    377); (383, 383, 1, 83); (384, 384, 1, 579); (387, 389, 2, 386); (392,
    392, 1, 391); (396, 396, 1, 395); (402, 402, 1, 401); (405, 405, 1,
    502); (409, 409, 1, 408); (410, 410, 1, 573); (414, 414, 1, 544); (417,
    421, 2, 416); (424, 424, 1, 423); (429, 429, 1, 428); (432, 432, 1,
    431); (436, 438, 2, 435); (441, 441, 1, 440); (445, 445, 1, 444); (447,
    447, 1, 503); (453, 453, 1, 452); (454, 454, 1, 452); (456, 456, 1,
    455); (457, 457, 1, 455); (459, 459, 1, 458); (460, 460, 1, 458); (462,
    476, 2, 461); (477, 477, 1, 398); (479, 495, 2, 478); (498, 498, 1,
    497); (499, 499, 1, 497); (501, 501, 1, 500); (505, 543, 2, 504); (547,
    563, 2, 546); (572, 572, 1, 571); (575, 576, 1, 11390); (578, 578, 1,
    577); (583, 591, 2, 582); (592, 592, 1, 11375); (593, 593, 1, 11373);
    (594, 594, 1, 11376); (595, 595, 1, 385); (596, 596, 1, 390); (598, 599,
    1, 393); (601, 601, 1, 399); (603, 603, 1, 400); (604, 604, 1, 42923);
    (608, 608, 1, 403); (609, 609, 1, 42924); (611, 611, 1, 404); (613, 613,
    1, 42893); (614, 614, 1, 42922); (616, 616, 1, 407); (617, 617, 1, 406);
    (618, 618, 1, 42926); (619, 619, 1, 11362); (620, 620, 1, 42925); (623,
    623, 1, 412); (625, 625, 1, 11374); (626, 626, 1, 413); (629, 629, 1,
    415); (637, 637, 1, 11364); (640, 640, 1, 422); (642, 642, 1, 42949);
    (643, 643, 1, 425); (647, 647, 1, 42929); (648, 648, 1, 430); (649, 649,
    1, 580); (650, 651, 1, 433); (652, 652, 1, 581); (658, 658, 1, 439);
    (669, 669, 1, 42930); (670, 670, 1, 42928); (837, 837, 1, 921); (881,
    883, 2, 880); (887, 887, 1, 886); (891, 893, 1, 1021); (940, 940, 1,
    902); (941, 943, 1, 904); (945, 961, 1, 913); (962, 962, 1, 931); (963,
    971, 1, 931); (972, 972, 1, 908); (973, 974, 1, 910); (976, 976, 1,
    914); (977, 977, 1, 920); (981, 981, 1, 934); (982, 982, 1, 928); (983,
    983, 1, 975); (985, 1007, 2, 984); (1008, 1008, 1, 922); (1009, 1009, 1,
    929); (1010, 1010, 1, 1017); (1011, 1011, 1, 895); (1013, 1013, 1, 917);
    (1016, 1016, 1, 1015); (1019, 1019, 1, 1018); (1072, 1103, 1, 1040);
    (1104, 1119, 1, 1024); (1121, 1153, 2, 1120); (1163, 1215, 2, 1162);
    (1218, 1230, 2, 1217); (1231, 1231, 1, 1216); (1233, 1327, 2, 1232);
    (1377, 1414, 1, 1329); (4304, 4346, 1, 7312); (4349, 4351, 1, 7357);
    (5112, 5117, 1, 5104); (7296, 7296, 1, 1042); (7297, 7297, 1, 1044);
    (7298, 7298, 1, 1054); (7299, 7300, 1, 1057); (7301, 7301, 1, 1058);
    (7302, 7302, 1, 1066); (7303, 7303, 1, 1122); (7304, 7304, 1, 42570);
    (7545, 7545, 1, 42877); (7549, 7549, 1, 11363); (7566, 7566, 1, 42950);
    (7681, 7829, 2, 7680); (7835, 7835, 1, 7776); (7841, 7935, 2, 7840);
    (7936, 7943, 1, 7944); (7952, 7957, 1, 7960); (7968, 7975, 1, 7976);
    (7984, 7991, 1, 7992); (8000, 8005, 1, 8008); (8017, 8023, 2, 8025);
    (8032, 8039, 1, 8040); (8048, 8049, 1, 8122); (8050, 8053, 1, 8136);
    (8054, 8055, 1, 8154); (8056, 8057, 1, 8184); (8058, 8059, 1, 8170);
    (8060, 8061, 1, 8186); (8112, 8113, 1, 8120); (8126, 8126, 1, 921);
    (8144, 8145, 1, 8152); (8160, 8161, 1, 8168); (8165, 8165, 1, 8172);
    (8526, 8526, 1, 8498); (8560, 8575, 1, 8544); (8580, 8580, 1, 8579);
    (9424, 9449, 1, 9398); (11312, 11359, 1, 11264); (11361, 11361, 1,
    11360); (11365, 11365, 1, 570); (11366, 11366, 1, 574); (11368, 11372,
    2, 11367); (11379, 11379, 1, 11378); (11382, 11382, 1, 11381); (11393,
    11491, 2, 11392); (11500, 11502, 2, 11499); (11507, 11507, 1, 11506);
    (11520, 11557, 1, 4256); (11559, 11559, 1, 4295); (11565, 11565, 1,
    4301); (42561, 42605, 2, 42560); (42625, 42651, 2, 42624); (42787,
    42799, 2, 42786); (42803, 42863, 2, 42802); (42874, 42876, 2, 42873);
    (42879, 42887, 2, 42878); (42892, 42892, 1, 42891); (42897, 42899, 2,
    42896); (42900, 42900, 1, 42948); (42903, 42921, 2, 42902); (42933,
    42947, 2, 42932); (42952, 42954, 2, 42951); (42961, 42961, 1, 42960);
    (42967, 42969, 2, 42966); (42998, 42998, 1, 42997); (43859, 43859, 1,
    42931); (43888, 43967, 1, 5024); (65345, 65370, 1, 65313); (66600,
    66639, 1, 66560); (66776, 66811, 1, 66736); (66967, 66977, 1, 66928);
    (66979, 66993, 1, 66940); (66995, 67001, 1, 66956); (67003, 67004, 1,
    66964); (68800, 68850, 1, 68736); (71872, 71903, 1, 71840); (93792,
    93823, 1, 93760); (125218, 125251, 1, 125184) ]%N.

Definition upper_special : list (N * list N) :=
  [ (223, [83; 83]); (329, [700; 78]); (496, [74; 780]); (912, [921; 776;
    769]); (944, [933; 776; 769]); (1415, [1333; 1362]); (7830, [72; 817]);
    (7831, [84; 776]); (7832, [87; 778]); (7833, [89; 778]); (7834, [65;
    702]); (8016, [933; 787]); (8018, [933; 787; 768]); (8020, [933; 787;
    769]); (8022, [933; 787; 834]); (8064, [7944; 921]); (8065, [7945;
    921]); (8066, [7946; 921]); (8067, [7947; 921]); (8068, [7948; 921]);
    (8069, [7949; 921]); (8070, [7950; 921]); (8071, [7951; 921]); (8072,
    [7944; 921]); (8073, [7945; 921]); (8074, [7946; 921]); (8075, [7947;
    921]); (8076, [7948; 921]); (8077, [7949; 921]); (8078, [7950; 921]);
    (8079, [7951; 921]); (8080, [7976; 921]); (8081, [7977; 921]); (8082,
    [7978; 921]); (8083, [7979; 921]); (8084, [7980; 921]); (8085, [7981;
    921]); (8086, [7982; 921]); (8087, [7983; 921]); (8088, [7976; 921]);
    (8089, [7977; 921]); (8090, [7978; 921]); (8091, [7979; 921]); (8092,
    [7980; 921]); (8093, [7981; 921]); (8094, [7982; 921]); (8095, [7983;
    921]); (8096, [8040; 921]); (8097, [8041; 921]); (8098, [8042; 921]);
    (8099, [8043; 921]); (8100, [8044; 921]); (8101, [8045; 921]); (8102,
    [8046; 921]); (8103, [8047; 921]); (8104, [8040; 921]); (8105, [8041;
    921]); (8106, [8042; 921]); (8107, [8043; 921]); (8108, [8044; 921]);
    (8109, [8045; 921]); (8110, [8046; 921]); (8111, [8047; 921]); (8114,
    [8122; 921]); (8115, [913; 921]); (8116, [902; 921]); (8118, [913;
    834]); (8119, [913; 834; 921]); (8124, [913; 921]); (8130, [8138; 921]);
    (8131, [919; 921]); (8132, [905; 921]); (8134, [919; 834]); (8135, [919;
    834; 921]); (8140, [919; 921]); (8146, [921; 776; 768]); (8147, [921;
    776; 769]); (8150, [921; 834]); (8151, [921; 776; 834]); (8162, [933;
    776; 768]); (8163, [933; 776; 769]); (8164, [929; 787]); (8166, [933;
    834]); (8167, [933; 776; 834]); (8178, [8186; 921]); (8179, [937; 921]);
    (8180, [911; 921]); (8182, [937; 834]); (8183, [937; 834; 921]); (8188,
    [937; 921]); (64256, [70; 70]); (64257, [70; 73]); (64258, [70; 76]);
    (64259, [70; 70; 73]); (64260, [70; 70; 76]); (64261, [83; 84]); (64262,
    [83; 84]); (64275, [1348; 1350]); (64276, [1348; 1333]); (64277, [1348;
    1339]); (64278, [1358; 1350]); (64279, [1348; 1341]) ]%N.

Definition isspace (c : char) : bool := bool_decide (c ∈ whitespace_table).

Definition isdecimal (c : char) : bool :=
  existsb (fun r => (fst r <=? c)%N && (c <=? snd r)%N) decimal_table.

(** A run [(lo, hi, step, target)] sends [lo + k * step <= hi] to
    [target + k * step]; [upper_special] holds the expanding mappings. *)
Definition in_run (c : char) (r : N * N * N * N) : bool :=
  let '(lo, hi, step, _) := r in
  (lo <=? c)%N && (c <=? hi)%N && ((c - lo) mod step =? 0)%N.

Definition upper_char (c : char) : str :=
  match find (in_run c) upper_runs with
  | Some (lo, _, _, target) => [(target + (c - lo))%N]
  | None =>
    match find (fun e => (fst e =? c)%N) upper_special with
    | Some (_, u) => u
    | None => [c]
    end
  end.

(** ** Python string methods *)

Definition eqb_str (a b : str) : bool := bool_decide (a = b).

(** [s.upper()] *)
Definition upper (s : str) : str := concat (map upper_char s).

Fixpoint lstrip_by (p : char -> bool) (s : str) : str :=
  match s with
  | c :: s' => if p c then lstrip_by p s' else s
  | [] => []
  end.

Definition rstrip_by (p : char -> bool) (s : str) : str :=
  rev (lstrip_by p (rev s)).

Definition strip_by (p : char -> bool) (s : str) : str :=
  rstrip_by p (lstrip_by p s).

(** [s.strip()] *)
Definition strip (s : str) : str := strip_by isspace s.

(** [s.strip(chars)] *)
Definition strip_chars (chars s : str) : str :=
  strip_by (fun c => bool_decide (c ∈ chars)) s.

(** [s.startswith(p)] *)
Fixpoint startswith (p s : str) : bool :=
  match p, s with
  | [], _ => true
  | a :: p', b :: s' => (a =? b)%N && startswith p' s'
  | _ :: _, [] => false
  end.

(** [s.endswith(p)] *)
Definition endswith (p s : str) : bool := startswith (rev p) (rev s).

(** [needle in hay] on strings: substring test. *)
Fixpoint contains (needle hay : str) : bool :=
  startswith needle hay
  || match hay with
     | [] => false
     | _ :: hay' => contains needle hay'
     end.

(** ** The fragment of [re] the program uses

    Every pattern of the source is a sequence of one-character classes,
    each taken once, optionally ([?]), greedily one or more times ([+]) or
    lazily one or more times ([+?]).  The matcher backtracks like [re]:
    alternatives are tried in the engine's order and the first success
    wins.  A match returns the text matched by each item and the text
    that follows the match. *)

Inductive quant := Once | Opt | Plus | PlusLazy.

Record item := Item { i_class : char -> bool; i_quant : quant }.

Abbreviation regex := (list item) (only parsing).

Definition match_result : Type := list str * str.

Definition push (seg : str) (r : option match_result) : option match_result :=
  match r with
  | Some (gs, rest) => Some (seg :: gs, rest)
  | None => None
  end.

(** [x+]: take one more character first, fall back to the continuation. *)
Fixpoint greedy_plus (p : char -> bool) (k : str -> option match_result)
    (s : str) : option (str * match_result) :=
  match s with
  | c :: s' =>
    if p c then
      match greedy_plus p k s' with
      | Some (seg, m) => Some (c :: seg, m)
      | None => match k s' with Some m => Some ([c], m) | None => None end
      end
    else None
  | [] => None
  end.

(** [x+?]: try the continuation first, take one more character otherwise. *)
Fixpoint lazy_plus (p : char -> bool) (k : str -> option match_result)
    (s : str) : option (str * match_result) :=
  match s with
  | c :: s' =>
    if p c then
      match k s' with
      | Some m => Some ([c], m)
      | None =>
        match lazy_plus p k s' with
        | Some (seg, m) => Some (c :: seg, m)
        | None => None
        end
      end
    else None
  | [] => None
  end.

Definition push_plus (r : option (str * match_result)) : option match_result :=
  match r with
  | Some (seg, (gs, rest)) => Some (seg :: gs, rest)
  | None => None
  end.

Fixpoint match_here (re : regex) (s : str) {struct re} : option match_result :=
  match re with
  | [] => Some ([], s)
  | it :: re' =>
    let k := match_here re' in
    match i_quant it with
    | Once =>
      match s with
      | c :: s' => if i_class it c then push [c] (k s') else None
      | [] => None
      end
    | Opt =>
      match s with
      | c :: s' =>
        if i_class it c then
          match k s' with
          | Some m => push [c] (Some m)
          | None => push [] (k s)
          end
        else push [] (k s)
      | [] => push [] (k s)
      end
    | Plus => push_plus (greedy_plus (i_class it) k s)
    | PlusLazy => push_plus (lazy_plus (i_class it) k s)
    end
  end.

(** [re.match(pattern, s)], as a truth value. *)
Definition re_match (re : regex) (s : str) : bool :=
  match match_here re s with Some _ => true | None => false end.

(** [re.search(pattern, s)]: the leftmost match, with the text before it. *)
Fixpoint re_search (re : regex) (s : str) : option (str * match_result) :=
  match match_here re s with
  | Some m => Some ([], m)
  | None =>
    match s with
    | [] => None
    | c :: s' =>
      match re_search re s' with
      | Some (before, m) => Some (c :: before, m)
      | None => None
      end
    end
  end.

(** [match.group(i)] for a group that wraps item [i - 1]... the segment of
    item [i] (counted from 0). *)
Definition segment (i : nat) (m : match_result) : str := nth i (fst m) [].

(** [re.sub(pattern, '', s)]: every non-overlapping match, found left to
    right, is deleted.  [skip] counts the characters of the current match
    that are still to be dropped; a match of length 0 deletes nothing. *)
Fixpoint sub_scan (re : regex) (skip : nat) (s : str) : str :=
  match s with
  | [] => []
  | c :: s' =>
    match skip with
    | S n => sub_scan re n s'
    | O =>
      match match_here re s with
      | Some (_, rest) =>
        match length s - length rest with
        | S n => sub_scan re n s'
        | O => c :: sub_scan re 0 s'
        end
      | None => c :: sub_scan re 0 s'
      end
    end
  end.

Definition re_sub (re : regex) (s : str) : str := sub_scan re 0 s.

(** [re.sub('^' + pattern, '', s)]: without [re.MULTILINE] the anchor [^]
    holds at index 0 only, so at most the match at the start is deleted. *)
Definition re_sub_start (re : regex) (s : str) : str :=
  match match_here re s with
  | Some (_, rest) => rest
  | None => s
  end.

Definition is_char (c : char) : char -> bool := N.eqb c.
Definition one_of (cs : str) (c : char) : bool := bool_decide (c ∈ cs).
(** [.] without [re.DOTALL]: any character but the line feed. *)
Definition dot (c : char) : bool := negb (c =? 10)%N.

(** [r'^[#]?\d+\.?\s'] (the leading [^] is carried by [re_match] and
    [re_sub_start]) *)
Definition question_start : regex :=
  [ Item (is_char 35) Opt; Item isdecimal Plus;
    Item (is_char 46) Opt; Item isspace Once ].

(** [r'^[A-D]\.?\s'] *)
Definition option_start : regex :=
  [ Item (one_of [65; 66; 67; 68]%N) Once; Item (is_char 46) Opt;
    Item isspace Once ].

(** [r'\{(.+?)\}'], group 1 is item 1 *)
Definition answer_mark : regex :=
  [ Item (is_char 123) Once; Item dot PlusLazy; Item (is_char 125) Once ].

(** ** Records and exceptions *)

Record question := Question {
  q_type : str;
  q_question : str;
  q_options : list str;
  q_answer : str
}.

Inductive exn :=
| KeyError (key : str)
| ValueError (what : str)
| IndexError.

Inductive result (A : Type) :=
| Ok (a : A)
| Raise (e : exn).
Arguments Ok {A} a.
Arguments Raise {A} e.

Definition bind {A B} (r : result A) (f : A -> result B) : result B :=
  match r with
  | Ok a => f a
  | Raise e => Raise e
  end.

Notation "x <~ r ;; k" := (bind r (fun x => k))
  (at level 100, r at next level, right associativity).

(** The loop state of [extract_questions_from_docx]; the dict
    [current_question] is [None] while it is the empty [{}]. *)
Record seg_state := SegState {
  questions : list question;
  current_question : option question;
  question_type : str
}.

Definition seg_init : seg_state := SegState [] None [].

Definition with_option (q : question) (o : str) : question :=
  Question (q_type q) (q_question q) (q_options q ++ [o]) (q_answer q).

Definition key_options : str := Eval vm_compute in u8 "options".

(** Text and answer of a question line, after the number is removed. *)
Definition split_answer (question_text : str) : str * str :=
  match re_search answer_mark question_text with
  | Some (_, m) => (segment 1 m, re_sub answer_mark question_text)
  | None => ([], question_text)
  end.

(** ** What both files share: type labels, worksheet cells, page output *)

Definition single_choice : str := u8 "单选题".
Definition multi_choice : str := u8 "多选题".
Definition true_false : str := u8 "判断题".

(** [ws.cell(row=r, column=c, value=v)] on an openpyxl worksheet: the
    sheet is the finite map of the cells written so far. *)
Definition cell (ws : gmap (nat * nat) (list N)) (row column : nat)
    (value : str) : gmap (nat * nat) (list N) :=
  <[(row, column) := value]> ws.

(** [for col, header in enumerate(headers, 1)] *)
Fixpoint write_headers (current_row col : nat) (headers : list str)
    (ws : gmap (nat * nat) (list N)) : gmap (nat * nat) (list N) :=
  match headers with
  | [] => ws
  | header :: rest =>
    write_headers current_row (S col) rest (cell ws current_row col header)
  end.

(** What the page shows for an upload, beyond its static text and its
    input widgets. *)
Inductive st_event :=
| StDownloadButton (ws : gmap (nat * nat) (list N))
| StSuccess (ws : gmap (nat * nat) (list N))
| StSaveError (e : exn)
| StPreview (qs : list question)
| StError (e : exn).

(** ** [bot_st1.0.1.py] *)

Module V101.

(** One iteration of [for para in doc.paragraphs]. *)
Definition seg_step (st : seg_state) (para : str) : result seg_state :=
  let text := strip para in
  if eqb_str text [] then Ok st
  else if startswith [35; 35]%N text && endswith [35; 35]%N text then
    Ok (SegState (questions st) (current_question st)
          (strip (strip_chars [35]%N text)))
  else if re_match question_start text then
    let saved :=
      match current_question st with
      | Some q => questions st ++ [q]
      | None => questions st
      end in
    let question_text := strip (re_sub_start question_start text) in
    let '(answer, question_text) := split_answer question_text in
    Ok (SegState saved
          (Some (Question (question_type st) (strip question_text) [] answer))
          (question_type st))
  else if re_match option_start text then
    let option_text := strip (re_sub_start option_start text) in
    match current_question st with
    | Some q =>
      Ok (SegState (questions st) (Some (with_option q option_text))
            (question_type st))
    | None => Raise (KeyError key_options)
    end
  else Ok st.

Fixpoint seg_loop (st : seg_state) (paragraphs : list str) : result seg_state :=
  match paragraphs with
  | [] => Ok st
  | para :: rest => st' <~ seg_step st para ;; seg_loop st' rest
  end.

Definition seg_finish (st : seg_state) : list question :=
  match current_question st with
  | Some q => questions st ++ [q]
  | None => questions st
  end.

Definition extract_questions_from_docx (paragraphs : list str)
    : result (list question) :=
  st <~ seg_loop seg_init paragraphs ;; Ok (seg_finish st).

(** *** Sheet builder *)

Definition headers : list str :=
  [ u8 "题目类型"; u8 "题目"; u8 "A"; u8 "B"; u8 "C"; u8 "D"; u8 "正确答案" ].

(** [for i, option in enumerate(q['options'])], from index [i] on. *)
Fixpoint write_options (current_row i : nat) (options : list str)
    (ws : gmap (nat * nat) (list N)) : gmap (nat * nat) (list N) :=
  match options with
  | [] => ws
  | option :: rest =>
    write_options current_row (S i) rest (cell ws current_row (i + 3) option)
  end.

Definition write_row (current_row : nat) (q : question)
    (ws : gmap (nat * nat) (list N)) : gmap (nat * nat) (list N) :=
  let ws := cell ws current_row 1 (q_type q) in
  let ws := cell ws current_row 2 (q_question q) in
  let ws :=
    if bool_decide (q_type q ∈ [single_choice; multi_choice])
    then write_options current_row 0 (q_options q) ws
    else ws in
  cell ws current_row 7 (q_answer q).

Fixpoint write_rows (current_row : nat) (qs : list question)
    (ws : gmap (nat * nat) (list N)) : gmap (nat * nat) (list N) :=
  match qs with
  | [] => ws
  | q :: rest => write_rows (S current_row) rest (write_row current_row q ws)
  end.

(** The cells of the worksheet when [wb.save] is reached. *)
Definition create_excel (questions : list question)
    : gmap (nat * nat) (list N) :=
  write_rows 2 questions (write_headers 1 1 headers ∅).

(** *** Page flow *)

Definition main (uploaded_file : option (list str)) : list st_event :=
  match uploaded_file with
  | None => []
  | Some paragraphs =>
    match extract_questions_from_docx paragraphs with
    | Raise e => [StError e]
    | Ok [] => []
    | Ok questions => [StDownloadButton (create_excel questions); StPreview questions]
    end
  end.

End V101.

(** ** [bot_st1.0.2.py] *)

Module V102.

(** One iteration of [for para in doc.paragraphs]. *)
Definition seg_step (st : seg_state) (para : str) : result seg_state :=
  let text := strip para in
  if eqb_str text [] then Ok st
  else if startswith [35; 35]%N text && endswith [35; 35]%N text then
    Ok (SegState (questions st) (current_question st)
          (strip (strip_chars [35]%N text)))
  else if re_match question_start text then
    let saved :=
      match current_question st with
      | Some q => questions st ++ [q]
      | None => questions st
      end in
    let question_text := strip (re_sub_start question_start text) in
    let '(answer, question_text) := split_answer question_text in
    Ok (SegState saved
          (Some (Question (question_type st) (strip question_text) [] answer))
          (question_type st))
  else if re_match option_start text then
    let option_text := strip (re_sub_start option_start text) in
    match current_question st with
    | Some q =>
      Ok (SegState (questions st) (Some (with_option q option_text))
            (question_type st))
    | None => Raise (KeyError key_options)
    end
  else Ok st.

Fixpoint seg_loop (st : seg_state) (paragraphs : list str) : result seg_state :=
  match paragraphs with
  | [] => Ok st
  | para :: rest => st' <~ seg_step st para ;; seg_loop st' rest
  end.

Definition seg_finish (st : seg_state) : list question :=
  match current_question st with
  | Some q => questions st ++ [q]
  | None => questions st
  end.

Definition extract_questions_from_docx (paragraphs : list str)
    : result (list question) :=
  st <~ seg_loop seg_init paragraphs ;; Ok (seg_finish st).

(** *** Type heuristic *)

Definition judge_tokens : list str :=
  [ u8 "正确"; u8 "错误"; u8 "对"; u8 "错"; u8 "T"; u8 "F" ].

Definition letters_AK : str := u8 "ABCDEFGHIJK".

Definition determine_question_type (question : question) : str :=
  let answer := upper (strip (q_answer question)) in
  if bool_decide (answer ∈ judge_tokens) then true_false
  else if (1 <? length answer)
          && forallb (fun c => contains [c] letters_AK) answer
  then multi_choice
  else if (length answer =? 1) && contains answer letters_AK
  then single_choice
  else single_choice.

(** *** Sheet builder *)

(** [chr(n)]: the one-character string of code point [n].  (Python stops
    at [0x10FFFF], which takes more than a million options on one
    question to reach from [65 + i]; code points are unbounded here.) *)
Definition chr (n : N) : str := [n].

Definition add_letters (letters : gset N) (q : question) : gset N :=
  foldl (fun letters i => letters ∪ {[ (65 + N.of_nat i)%N ]})
        letters (seq 0 (length (q_options q))).

(** The set holds the code point of each one-character string
    [chr(65 + i)]; [sorted] orders such strings by code point. *)
Definition get_option_letters (questions : list question) : list str :=
  let letters := foldl add_letters ∅ questions in
  map chr (merge_sort N.le (elements letters)).

Definition h_type : str := u8 "题型".
Definition h_question : str := u8 "题目".
Definition h_answer : str := u8 "答案".
Definition h_true : str := u8 "正确".
Definition h_false : str := u8 "错误".

Definition get_headers (question_type : str) (option_letters : list str)
    : list str :=
  let common_headers := [h_type; h_question] in
  if bool_decide (question_type ∈ [single_choice; multi_choice]) then
    common_headers ++ option_letters ++ [h_answer]
  else if eqb_str question_type true_false then
    common_headers ++ [h_true; h_false; h_answer]
  else common_headers ++ [h_answer].

(** [if not q.get('type'): q['type'] = determine_question_type(q)] *)
Definition assign_type (q : question) : question :=
  if eqb_str (q_type q) [] then
    Question (determine_question_type q) (q_question q) (q_options q)
             (q_answer q)
  else q.

(** The records after the typing loop; the loop updates the caller's
    records in place, so this is also what [questions] holds afterwards. *)
Definition processed_questions (questions : list question) : list question :=
  map assign_type questions.

(** [l.index(x)] *)
Fixpoint index (x : str) (l : list str) : result nat :=
  match l with
  | [] => Raise (ValueError x)
  | y :: l' => if eqb_str y x then Ok 0 else i <~ index x l' ;; Ok (S i)
  end.

(** [for i, option in enumerate(q['options'])], from index [i] on. *)
Fixpoint write_options (headers : list str) (current_row i : nat)
    (options : list str) (ws : gmap (nat * nat) (list N))
    : result (gmap (nat * nat) (list N)) :=
  match options with
  | [] => Ok ws
  | option :: rest =>
    j <~ index (chr (65 + N.of_nat i)) headers ;;
    write_options headers current_row (S i) rest
                  (cell ws current_row (j + 1) option)
  end.

Definition write_row (headers : list str) (current_row : nat) (q : question)
    (ws : gmap (nat * nat) (list N)) : result (gmap (nat * nat) (list N)) :=
  let question_type := q_type q in
  let ws := cell ws current_row 1 question_type in
  let ws := cell ws current_row 2 (q_question q) in
  if bool_decide (question_type ∈ [single_choice; multi_choice]) then
    ws <~ write_options headers current_row 0 (q_options q) ws ;;
    Ok (cell ws current_row (length headers) (q_answer q))
  else if eqb_str question_type true_false then
    let ws := cell ws current_row 3 h_true in
    let ws := cell ws current_row 4 h_false in
    Ok (cell ws current_row 5 (q_answer q))
  else Ok (cell ws current_row 3 (q_answer q)).

Fixpoint write_rows (headers : list str) (current_row : nat)
    (qs : list question) (ws : gmap (nat * nat) (list N))
    : result (gmap (nat * nat) (list N)) :=
  match qs with
  | [] => Ok ws
  | q :: rest =>
    ws <~ write_row headers current_row q ws ;;
    write_rows headers (S current_row) rest ws
  end.

(** The header row [write_to_excel] computes; [processed_questions[0]]
    raises on an empty list. *)
Definition headers_of (questions : list question) : result (list str) :=
  let option_letters := get_option_letters questions in
  match processed_questions questions with
  | [] => Raise IndexError
  | first :: _ => Ok (get_headers (q_type first) option_letters)
  end.

(** The cells of the worksheet when [wb.save] is reached.  The column
    widths set after the rows change no cell; saving belongs to
    openpyxl. *)
Definition write_to_excel (questions : list question)
    : result (gmap (nat * nat) (list N)) :=
  headers <~ headers_of questions ;;
  let ws := write_headers 1 1 headers ∅ in
  write_rows headers 2 (processed_questions questions) ws.

(** *** Page flow *)

Inductive save_method :=
| DirectDownload
| SaveTo (save_path : str) (button : bool).

(** [uploaded_file] is the paragraph texts of the document, [None] while
    nothing is uploaded; [os.makedirs] and [wb.save] belong to the file
    system. *)
Definition main (uploaded_file : option (list str)) (method : save_method)
    : list st_event :=
  match uploaded_file with
  | None => []
  | Some paragraphs =>
    match extract_questions_from_docx paragraphs with
    | Raise e => [StError e]
    | Ok [] => []
    | Ok questions =>
      match method with
      | DirectDownload =>
        match write_to_excel questions with
        | Ok ws => [StDownloadButton ws; StPreview (processed_questions questions)]
        | Raise e => [StError e]
        end
      | SaveTo [] _ => [StPreview questions]
      | SaveTo _ false => [StPreview questions]
      | SaveTo _ true =>
        match write_to_excel questions with
        | Ok ws => [StSuccess ws; StPreview (processed_questions questions)]
        | Raise e => [StSaveError e; StPreview (processed_questions questions)]
        end
      end
    end
  end.

End V102.

(** ** Scenarios of the specification *)

Definition scenario_a : list str :=
  [ u8 "##单选题##"; u8 "1. What is 2+2?{B}"; u8 "A. 3"; u8 "B. 4" ].

Definition scenario_a_english : list str :=
  [ u8 "##single-choice##"; u8 "1. What is 2+2?{B}"; u8 "A. 3"; u8 "B. 4" ].


(** ** The rules of the specification, in its own words *)

(** Section 4.2: the option-letter alphabet A through K. *)
Definition in_AK (c : char) : bool := (65 <=? c)%N && (c <=? 75)%N.


(** ** Auxiliary notions of the properties *)

(** The code points of the letters [chr(65 + i)] of the option positions of
    [questions]. *)
Definition letter_codes (questions : list question) : gset N :=
  foldl V102.add_letters ∅ questions.

(** The letters of the header, as code points in the order of the header. *)
Definition sorted_letter_codes (questions : list question) : list N :=
  merge_sort N.le (elements (letter_codes questions)).

Definition true_false_first : list question :=
  [ Question [] (u8 "It rains") [] (u8 "正确");
    Question single_choice (u8 "Pick") [u8 "x"; u8 "y"] (u8 "A") ].

Definition two_after_first : list question :=
  [ Question single_choice (u8 "one") [u8 "x"] (u8 "A");
    Question [] (u8 "two") [u8 "x"; u8 "y"; u8 "z"] (u8 "AC") ].

(** The last item of [answer_mark], the continuation of its lazy body. *)
Definition closing : regex := [ Item (is_char 125) Once ].


(** The records saved once a new question line is read. *)
Definition saved_questions (st : seg_state) : list question :=
  match current_question st with
  | Some q => questions st ++ [q]
  | None => questions st
  end.

(** The class of a paragraph, by the tests of the loop body in their
    order. *)
Inductive line_class := Blank | Marker | QuestionLine | OptionLine | Other.

Definition classify (para : str) : line_class :=
  let text := strip para in
  if eqb_str text [] then Blank
  else if startswith [35; 35]%N text && endswith [35; 35]%N text then Marker
  else if re_match question_start text then QuestionLine
  else if re_match option_start text then OptionLine
  else Other.

Definition no_question_lines : list str :=
  [ u8 "##判断题##"; u8 ""; u8 "stray prose"; u8 "E. stray" ].

Definition true_false_then_choice : list str :=
  [ u8 "##判断题##"; u8 "1. It rains{正确}";
    u8 "##单选题##"; u8 "2. Pick{A}"; u8 "A. x"; u8 "B. y" ].



(** ** Notions for the further properties *)

(** The label a marker line sets, the text an option line adds and the
    record a question line opens, as the loop body computes them. *)
Definition marker_label (para : str) : str :=
  strip (strip_chars [35]%N (strip para)).

Definition option_text (para : str) : str :=
  strip (re_sub_start option_start (strip para)).

Definition opened_question (ty para : str) : question :=
  let '(answer, question_text) :=
    split_answer (strip (re_sub_start question_start (strip para))) in
  Question ty (strip question_text) [] answer.

(** Whether the first question or option line of the input is an option
    line. *)
Fixpoint option_comes_first (paragraphs : list str) : bool :=
  match paragraphs with
  | [] => false
  | para :: rest =>
    match classify para with
    | QuestionLine => false
    | OptionLine => true
    | _ => option_comes_first rest
    end
  end.

Definition is_question_line (para : str) : bool :=
  match classify para with QuestionLine => true | _ => false end.

Definition is_option_line (para : str) : bool :=
  match classify para with OptionLine => true | _ => false end.

(** The label of the last marker line of [paragraphs], [ty] without one. *)
Fixpoint ambient_type (ty : str) (paragraphs : list str) : str :=
  match paragraphs with
  | [] => ty
  | para :: rest =>
    ambient_type (match classify para with
                  | Marker => marker_label para
                  | _ => ty
                  end) rest
  end.

(** A string without whitespace at either end. *)
Definition trimmed (s : str) : Prop := strip s = s.

Definition trimmed_question (q : question) : Prop :=
  trimmed (q_type q) /\ trimmed (q_question q)
  /\ Forall trimmed (q_options q).

(** [q] with further options appended, in their order. *)
Definition with_options (q : question) (os : list str) : question :=
  Question (q_type q) (q_question q) (q_options q ++ os) (q_answer q).

Definition blank_and_option_lines : list str :=
  [ u8 "1. Sky{A}"; u8 "   "; u8 "A. blue"; u8 "some prose"; u8 "B. red" ].

(** The invariant of the loop behind [trimmed_question]. *)
Definition state_trimmed (st : seg_state) : Prop :=
  trimmed (question_type st)
  /\ Forall trimmed_question (questions st)
  /\ forall q, current_question st = Some q -> trimmed_question q.

(** An option letter in either case: a to k or A to K. *)
Definition is_option_letter (c : char) : bool :=
  ((65 <=? c)%N && (c <=? 75)%N) || ((97 <=? c)%N && (c <=? 107)%N).

(** The largest number of options of one record. *)
Definition max_options (questions : list question) : nat :=
  foldr (fun q m => Nat.max (length (q_options q)) m) 0 questions.

(** The letters A, B, ... for the first [m] option positions. *)
Definition letters_upto (m : nat) : list str :=
  map (fun i => V102.chr (65 + N.of_nat i)) (seq 0 m).





(** Whether the first line feed or closing brace of [u] is a closing
    brace, and whether [t] can follow an opening brace in an answer mark:
    a character other than a line feed, then text that [closes]. *)
Fixpoint closes (u : str) : bool :=
  match u with
  | [] => false
  | c :: u' =>
    if (c =? 125)%N then true else if (c =? 10)%N then false else closes u'
  end.

Definition opens (t : str) : bool :=
  match t with
  | [] => false
  | x :: u => negb (x =? 10)%N && closes u
  end.

(** The stem holds no answer mark. *)
Definition mark_free (q : question) : Prop :=
  re_search answer_mark (q_question q) = None.

(** An answer as the segmenter stores it: empty, or text without a line
    feed and, behind its first character, without a closing brace. *)
Definition answer_shaped (q : question) : Prop :=
  q_answer q = []
  \/ (q_answer q <> [] /\ (10%N ∉ q_answer q)
      /\ (125%N ∉ tail (q_answer q))).

(** * Properties *)

(** Closed decidable side conditions, by evaluation. *)
Ltac by_evaluation := apply (bool_decide_unpack _); vm_compute; exact I.

(** ** Segmenter: the two file variants *)

Lemma seg_step_agree (st : seg_state) (para : str) :
  V101.seg_step st para = V102.seg_step st para.
Proof. reflexivity. Qed.

Lemma seg_loop_agree (paragraphs : list str) (st : seg_state) :
  V101.seg_loop st paragraphs = V102.seg_loop st paragraphs.
Proof.
  revert st. induction paragraphs as [|para rest IH]; intros st; simpl.
  - reflexivity.
  - rewrite seg_step_agree. destruct (V102.seg_step st para); simpl; auto.
Qed.

(** C10: on every paragraph sequence the segmenter of [bot_st1.0.1.py] and
    the segmenter of [bot_st1.0.2.py] give the same outcome: the same
    records in the same order, or the same exception. *)
Theorem segmenters_agree (paragraphs : list str) :
  V101.extract_questions_from_docx paragraphs
  = V102.extract_questions_from_docx paragraphs.
Proof.
  unfold V101.extract_questions_from_docx, V102.extract_questions_from_docx.
  rewrite seg_loop_agree.
  destruct (V102.seg_loop seg_init paragraphs); reflexivity.
Qed.

(** C7: Scenario A yields exactly one record, of type single-choice, with
    stem "What is 2+2?", options "3" and "4" and answer "B"; the label of
    the record is the text between the marker's sentinels, here the
    program's own label and the specification's English one. *)
Theorem scenario_a_one_record :
  V102.extract_questions_from_docx scenario_a
  = Ok [ Question single_choice (u8 "What is 2+2?")
                  [u8 "3"; u8 "4"] (u8 "B") ]
  /\ V102.extract_questions_from_docx scenario_a_english
     = Ok [ Question (u8 "single-choice") (u8 "What is 2+2?")
                     [u8 "3"; u8 "4"] (u8 "B") ].
Proof. split; vm_compute; reflexivity. Qed.

(** With no question open, an option line makes the step raise. *)
Lemma option_line_without_open_question (st : seg_state) (para : str) :
  current_question st = None -> classify para = OptionLine ->
  V102.seg_step st para = Raise (KeyError (u8 "options")).
Proof.
  unfold classify, V102.seg_step. intros Hopen Hclass.
  destruct (eqb_str (strip para) []); [discriminate|].
  destruct (startswith [35; 35]%N (strip para)
            && endswith [35; 35]%N (strip para)); [discriminate|].
  destruct (re_match question_start (strip para)); [discriminate|].
  destruct (re_match option_start (strip para)); [|discriminate].
  rewrite Hopen. reflexivity.
Qed.

(** C2: an option line before any question line is not dropped: the
    segmenter indexes the still empty [current_question] and raises
    [KeyError], while the input without that line gives the empty
    sequence. *)
Theorem option_line_before_question_raises :
  V102.extract_questions_from_docx [u8 "A. x"] = Raise (KeyError (u8 "options"))
  /\ V101.extract_questions_from_docx [u8 "A. x"] = Raise (KeyError (u8 "options"))
  /\ V102.extract_questions_from_docx [] = Ok [].
Proof. repeat split; vm_compute; reflexivity. Qed.

(** ** Type heuristic *)

Lemma letters_AK_codes :
  V102.letters_AK = [65; 66; 67; 68; 69; 70; 71; 72; 73; 74; 75]%N.
Proof. vm_compute. reflexivity. Qed.

Lemma contains_letter (c : char) : contains [c] V102.letters_AK = in_AK c.
Proof.
  rewrite letters_AK_codes. unfold in_AK. cbn [contains startswith].
  repeat match goal with
         | |- context [(c =? ?n)%N] => destruct (N.eqb_spec c n); [subst c; reflexivity|]
         end.
  cbn [andb orb]. symmetry. apply andb_false_iff.
  destruct (N.leb_spec 65 c); [right | left; reflexivity].
  apply N.leb_gt. lia.
Qed.

Lemma forallb_pointwise (f g : char -> bool) (l : str) :
  (forall c, f c = g c) -> forallb f l = forallb g l.
Proof.
  intros Hfg. induction l as [|c l IH]; simpl; [reflexivity|].
  rewrite Hfg, IH. reflexivity.
Qed.

Lemma labels_distinct :
  single_choice <> [] /\ multi_choice <> [] /\ true_false <> []
  /\ single_choice <> multi_choice
  /\ single_choice <> true_false
  /\ multi_choice <> true_false.
Proof. vm_compute. repeat split; discriminate. Qed.


(** C9: the typing loop leaves the stem, the options and the answer of
    every record as they were, and a record whose type is not empty stays
    the same record. *)
Theorem typing_keeps_tagged_records (qs : list question) (i : nat) (q : question) :
  qs !! i = Some q ->
  exists q',
    V102.processed_questions qs !! i = Some q'
    /\ q_question q' = q_question q
    /\ q_options q' = q_options q
    /\ q_answer q' = q_answer q
    /\ (q_type q <> [] -> q' = q)
    /\ (q_type q = [] -> q_type q' = V102.determine_question_type q).
Proof.
  intros Hq. exists (V102.assign_type q).
  unfold V102.processed_questions. rewrite list_lookup_fmap, Hq.
  split; [reflexivity|].
  unfold V102.assign_type, eqb_str.
  case_bool_decide as Hty; cbn [q_question q_options q_answer q_type];
    repeat split; try reflexivity; intros; congruence.
Qed.

Lemma typing_keeps_tagged_records_witness :
  exists q',
    V102.processed_questions
      [ Question (u8 "填空题") (u8 "stem") [u8 "x"] (u8 "AB") ] !! 0 = Some q'
    /\ q_question q' = u8 "stem"
    /\ q_options q' = [u8 "x"]
    /\ q_answer q' = u8 "AB"
    /\ q_type q' = u8 "填空题".
Proof.
  destruct (typing_keeps_tagged_records
              [ Question (u8 "填空题") (u8 "stem") [u8 "x"] (u8 "AB") ] 0
              (Question (u8 "填空题") (u8 "stem") [u8 "x"] (u8 "AB"))
              eq_refl)
    as (q' & H0 & H1 & H2 & H3 & H4 & _).
  exists q'. repeat split; try assumption.
  rewrite (H4 ltac:(vm_compute; discriminate)). reflexivity.
Defined.

(** ** Column schema *)

#[local] Instance N_le_is_total : Total N.le.
Proof. intros a b. apply N.le_ge_cases. Qed.

Lemma elem_of_fold_letters (l : list nat) (s : gset N) (c : N) :
  c ∈ foldl (fun letters i => letters ∪ {[ (65 + N.of_nat i)%N ]}) s l
  <-> c ∈ s \/ exists i, i ∈ l /\ c = (65 + N.of_nat i)%N.
Proof.
  revert s. induction l as [|i l IH]; intros s; cbn [foldl].
  - split; [auto|]. intros [H|(i & Hi & _)]; [exact H|].
    apply elem_of_nil in Hi. contradiction.
  - rewrite IH, elem_of_union, elem_of_singleton. split.
    + intros [[H|H]|(j & Hj & Hc)].
      * left. exact H.
      * right. exists i. split; [left|exact H].
      * right. exists j. split; [right; exact Hj|exact Hc].
    + intros [H|(j & Hj & Hc)].
      * left. left. exact H.
      * apply elem_of_cons in Hj. destruct Hj as [->|Hj].
        -- left. right. exact Hc.
        -- right. exists j. split; assumption.
Qed.

Lemma elem_of_add_letters (s : gset N) (q : question) (c : N) :
  c ∈ V102.add_letters s q
  <-> c ∈ s \/ exists i, i < length (q_options q) /\ c = (65 + N.of_nat i)%N.
Proof.
  unfold V102.add_letters. rewrite elem_of_fold_letters.
  split; (intros [H|(i & Hi & Hc)]; [left; exact H|right; exists i; split; [|exact Hc]]).
  - apply elem_of_seq in Hi. lia.
  - apply elem_of_seq. lia.
Qed.

Lemma elem_of_fold_add_letters (qs : list question) (s : gset N) (c : N) :
  c ∈ foldl V102.add_letters s qs
  <-> c ∈ s \/ exists q i, q ∈ qs /\ i < length (q_options q)
                           /\ c = (65 + N.of_nat i)%N.
Proof.
  revert s. induction qs as [|q qs IH]; intros s; cbn [foldl].
  - split; [auto|]. intros [H|(q & i & Hq & _)]; [exact H|].
    apply elem_of_nil in Hq. contradiction.
  - rewrite IH, elem_of_add_letters. split.
    + intros [[H|(i & Hi & Hc)]|(q' & i & Hq' & Hi & Hc)].
      * left. exact H.
      * right. exists q, i. split; [left|split; assumption].
      * right. exists q', i. split; [right; exact Hq'|split; assumption].
    + intros [H|(q' & i & Hq' & Hi & Hc)].
      * left. left. exact H.
      * apply elem_of_cons in Hq'. destruct Hq' as [->|Hq'].
        -- left. right. exists i. split; assumption.
        -- right. exists q', i. split; [exact Hq'|split; assumption].
Qed.

Lemma elem_of_letter_codes (qs : list question) (c : N) :
  c ∈ letter_codes qs
  <-> exists q i, q ∈ qs /\ i < length (q_options q) /\ c = (65 + N.of_nat i)%N.
Proof.
  unfold letter_codes. rewrite elem_of_fold_add_letters. split.
  - intros [H|H]; [|exact H]. apply elem_of_empty in H. contradiction.
  - intros H. right. exact H.
Qed.

Lemma letter_codes_Permutation (qs qs' : list question) :
  qs ≡ₚ qs' -> letter_codes qs = letter_codes qs'.
Proof.
  intros Hperm. apply set_eq. intros c. rewrite !elem_of_letter_codes.
  split; intros (q & i & Hq & H); exists q, i; split; try exact H.
  - rewrite <- Hperm. exact Hq.
  - rewrite Hperm. exact Hq.
Qed.

Lemma get_option_letters_codes (qs : list question) :
  V102.get_option_letters qs = map V102.chr (sorted_letter_codes qs).
Proof. reflexivity. Qed.

Lemma sorted_letter_codes_spec (qs : list question) :
  Sorted N.le (sorted_letter_codes qs)
  /\ NoDup (sorted_letter_codes qs)
  /\ forall c, c ∈ sorted_letter_codes qs
       <-> exists q i, q ∈ qs /\ i < length (q_options q)
                       /\ c = (65 + N.of_nat i)%N.
Proof.
  unfold sorted_letter_codes. split; [|split].
  - apply Sorted_merge_sort. apply _.
  - rewrite merge_sort_Permutation. apply NoDup_elements.
  - intros c. rewrite merge_sort_Permutation, elem_of_elements.
    apply elem_of_letter_codes.
Qed.

(** C5: the header row of a non-empty sequence is fixed by the type the
    first record has after the typing loop: for single-choice and
    multi-choice it is type, stem, the option letters, answer; for
    true-false it is type, stem, the two labels, answer; for every other
    type it is type, stem, answer.  The option letters are the letters
    [chr(65 + i)] of the option positions of all records, each once, in
    ascending order. *)
Theorem header_row_from_first_record (q : question) (qs : list question) :
  let first_type := q_type (V102.assign_type q) in
  let letters := sorted_letter_codes (q :: qs) in
  (first_type = single_choice \/ first_type = multi_choice ->
     V102.headers_of (q :: qs)
     = Ok ([V102.h_type; V102.h_question] ++ map V102.chr letters
           ++ [V102.h_answer]))
  /\ (first_type = true_false ->
        V102.headers_of (q :: qs)
        = Ok [V102.h_type; V102.h_question; V102.h_true; V102.h_false;
              V102.h_answer])
  /\ (first_type <> single_choice -> first_type <> multi_choice ->
      first_type <> true_false ->
        V102.headers_of (q :: qs)
        = Ok [V102.h_type; V102.h_question; V102.h_answer])
  /\ Sorted N.le letters /\ NoDup letters
  /\ forall c, c ∈ letters
       <-> exists q' i, q' ∈ q :: qs /\ i < length (q_options q')
                        /\ c = (65 + N.of_nat i)%N.
Proof.
  intros first_type letters.
  destruct labels_distinct as (_ & _ & _ & Hsm & Hst & Hmt).
  assert (Hh : V102.headers_of (q :: qs)
               = Ok (V102.get_headers first_type (map V102.chr letters))).
  { reflexivity. }
  rewrite Hh. unfold V102.get_headers, eqb_str.
  split; [|split; [|split]].
  - intros Hty. rewrite bool_decide_eq_true_2; [reflexivity|].
    destruct Hty as [-> | ->]; set_solver.
  - intros Hty. rewrite bool_decide_eq_false_2.
    + rewrite bool_decide_eq_true_2; [reflexivity|exact Hty].
    + rewrite Hty. rewrite !elem_of_cons, elem_of_nil.
      intros [E|[E|[]]]; congruence.
  - intros H1 H2 H3. rewrite bool_decide_eq_false_2.
    + rewrite bool_decide_eq_false_2; [reflexivity|exact H3].
    + rewrite !elem_of_cons, elem_of_nil. intros [E|[E|[]]]; congruence.
  - apply sorted_letter_codes_spec.
Qed.

Lemma header_row_from_first_record_witness :
  V102.headers_of true_false_first
  = Ok [V102.h_type; V102.h_question; V102.h_true; V102.h_false; V102.h_answer].
Proof.
  apply (header_row_from_first_record
           (Question [] (u8 "It rains") [] (u8 "正确"))
           [ Question single_choice (u8 "Pick") [u8 "x"; u8 "y"] (u8 "A") ]).
  vm_compute. reflexivity.
Defined.

(** C6: permuting the records after the first leaves the header row as it
    is. *)
Theorem schema_permutation_invariant (q : question) (qs qs' : list question) :
  qs ≡ₚ qs' -> V102.headers_of (q :: qs) = V102.headers_of (q :: qs').
Proof.
  intros Hperm. unfold V102.headers_of. cbn [V102.processed_questions map].
  rewrite !get_option_letters_codes. unfold sorted_letter_codes.
  rewrite (letter_codes_Permutation (q :: qs) (q :: qs')); [reflexivity|].
  constructor. exact Hperm.
Qed.

Lemma schema_permutation_invariant_witness :
  V102.headers_of
    (Question multi_choice (u8 "zero") [] (u8 "AB") :: two_after_first)
  = V102.headers_of
      (Question multi_choice (u8 "zero") [] (u8 "AB")
         :: rev two_after_first).
Proof.
  apply (schema_permutation_invariant
           (Question multi_choice (u8 "zero") [] (u8 "AB"))
           two_after_first (rev two_after_first)).
  apply perm_swap.
Defined.

(** ** Answer marks *)

Lemma match_here_closing (post : str) :
  match_here closing (125%N :: post) = Some ([[125%N]], post).
Proof. reflexivity. Qed.

Lemma match_here_closing_other (c : char) (s : str) :
  c <> 125%N -> match_here closing (c :: s) = None.
Proof.
  intros Hc. unfold closing. cbn [match_here i_quant i_class]. unfold is_char.
  destruct (N.eqb_spec 125 c) as [E|_]; [congruence|reflexivity].
Qed.

Lemma dot_true (c : char) : c <> 10%N -> dot c = true.
Proof.
  intros Hc. unfold dot. destruct (N.eqb_spec c 10); [contradiction|reflexivity].
Qed.

Lemma lazy_plus_cons (p : char -> bool) (k : str -> option match_result)
    (c : char) (s : str) :
  lazy_plus p k (c :: s)
  = if p c then
      match k s with
      | Some m => Some ([c], m)
      | None =>
        match lazy_plus p k s with
        | Some (seg, m) => Some (c :: seg, m)
        | None => None
        end
      end
    else None.
Proof. reflexivity. Qed.

(** The lazy body stops at the first [}] behind its first character. *)
Lemma lazy_plus_to_first_close (inner post : str) (x : char) :
  10%N ∉ x :: inner -> 125%N ∉ inner ->
  lazy_plus dot (match_here closing) (x :: inner ++ 125%N :: post)
  = Some (x :: inner, ([[125%N]], post)).
Proof.
  revert x. induction inner as [|y inner IH]; intros x Hnl Hcl;
    apply not_elem_of_cons in Hnl as [Hx Hnl]; rewrite lazy_plus_cons;
    rewrite (dot_true x) by congruence.
  - cbn [app]. rewrite match_here_closing. reflexivity.
  - apply not_elem_of_cons in Hcl as [Hy Hcl].
    rewrite <- app_comm_cons.
    rewrite match_here_closing_other by congruence.
    rewrite (IH y Hnl Hcl). reflexivity.
Qed.

Lemma match_here_answer_mark_cons (c : char) (s : str) :
  match_here answer_mark (c :: s)
  = if is_char 123 c
    then push [c] (push_plus (lazy_plus dot (match_here closing) s))
    else None.
Proof. reflexivity. Qed.

Lemma match_here_no_open (c : char) (s : str) :
  c <> 123%N -> match_here answer_mark (c :: s) = None.
Proof.
  intros Hc. rewrite match_here_answer_mark_cons. unfold is_char.
  destruct (N.eqb_spec 123 c); [congruence|reflexivity].
Qed.

Lemma match_here_answer_mark_nil : match_here answer_mark [] = None.
Proof. reflexivity. Qed.


Lemma sub_scan_match (re : regex) (c : char) (s rest : str) (gs : list str)
    (n : nat) :
  match_here re (c :: s) = Some (gs, rest) ->
  length (c :: s) - length rest = S n ->
  sub_scan re 0 (c :: s) = sub_scan re n s.
Proof. intros Hm Hn. cbn [sub_scan]. rewrite Hm, Hn. reflexivity. Qed.

Lemma sub_scan_skip (re : regex) (l r : str) :
  sub_scan re (length l) (l ++ r) = sub_scan re 0 r.
Proof. induction l as [|c l IH]; [reflexivity | exact IH]. Qed.



(** A span [{x inner}]: one or more characters, none a line feed, and no
    closing brace behind the first of them. *)
Section FirstSpan.

Variables (inner post : str) (x : char).
Hypothesis no_line_feed : 10%N ∉ x :: inner.
Hypothesis no_close : 125%N ∉ inner.

Lemma match_here_span :
  match_here answer_mark (123%N :: x :: inner ++ 125%N :: post)
  = Some ([[123%N]; x :: inner; [125%N]], post).
Proof.
  rewrite match_here_answer_mark_cons.
  rewrite (lazy_plus_to_first_close inner post x no_line_feed no_close).
  reflexivity.
Qed.

Lemma re_sub_span :
  re_sub answer_mark (123%N :: x :: inner ++ 125%N :: post)
  = re_sub answer_mark post.
Proof.
  unfold re_sub.
  rewrite (sub_scan_match _ _ _ _ _ (length (x :: inner ++ [125%N]))
             match_here_span).
  - replace (x :: inner ++ 125%N :: post) with ((x :: inner ++ [125%N]) ++ post).
    + apply sub_scan_skip.
    + cbn [app]. rewrite <- app_assoc. reflexivity.
  - cbn [length]. rewrite !length_app. cbn [length]. lia.
Qed.


End FirstSpan.





(** ** End of input and the caller *)

(** Outside question and option lines a step keeps the records and the
    open question. *)
Lemma seg_step_keeps_records (st : seg_state) (para : str) :
  classify para <> QuestionLine -> classify para <> OptionLine ->
  exists ty, V102.seg_step st para
             = Ok (SegState (questions st) (current_question st) ty).
Proof.
  unfold classify, V102.seg_step. intros Hq Ho.
  destruct (eqb_str (strip para) []).
  { exists (question_type st). destruct st; reflexivity. }
  destruct (startswith [35; 35]%N (strip para)
            && endswith [35; 35]%N (strip para)).
  { eexists. reflexivity. }
  destruct (re_match question_start (strip para)); [congruence|].
  destruct (re_match option_start (strip para)); [congruence|].
  exists (question_type st). destruct st; reflexivity.
Qed.

Lemma seg_loop_keeps_records (paragraphs : list str) (st : seg_state) :
  Forall (fun para => classify para <> QuestionLine) paragraphs ->
  Forall (fun para => classify para <> OptionLine) paragraphs ->
  exists ty, V102.seg_loop st paragraphs
             = Ok (SegState (questions st) (current_question st) ty).
Proof.
  revert st. induction paragraphs as [|para rest IH]; intros st Hq Ho.
  - exists (question_type st). destruct st; reflexivity.
  - inversion Hq as [|? ? Hq1 Hq2]; subst.
    inversion Ho as [|? ? Ho1 Ho2]; subst.
    destruct (seg_step_keeps_records st para Hq1 Ho1) as (ty & Hstep).
    cbn [V102.seg_loop]. rewrite Hstep. cbn [bind].
    destruct (IH (SegState (questions st) (current_question st) ty) Hq2 Ho2)
      as (ty' & Hloop).
    exists ty'. exact Hloop.
Qed.

(** C8, as the program has it: when the loop has read all paragraphs and
    a question is still open, that question is the last record of the
    result; an input without question lines and without option lines
    gives the empty sequence, and for it the caller writes no sheet and
    shows no message at all. *)
Theorem end_of_input (paragraphs : list str) :
  Forall (fun para => classify para <> QuestionLine) paragraphs ->
  Forall (fun para => classify para <> OptionLine) paragraphs ->
  V102.extract_questions_from_docx paragraphs = Ok []
  /\ (forall method, V102.main (Some paragraphs) method = [])
  /\ (forall any_paragraphs st q,
        V102.seg_loop seg_init any_paragraphs = Ok st ->
        current_question st = Some q ->
        V102.extract_questions_from_docx any_paragraphs
        = Ok (questions st ++ [q])).
Proof.
  intros Hq Ho.
  assert (Hempty : V102.extract_questions_from_docx paragraphs = Ok []).
  { unfold V102.extract_questions_from_docx.
    destruct (seg_loop_keeps_records paragraphs seg_init Hq Ho) as (ty & ->).
    reflexivity. }
  split; [exact Hempty|]. split.
  - intros method. unfold V102.main. rewrite Hempty. reflexivity.
  - intros any_paragraphs st q Hloop Hopen.
    unfold V102.extract_questions_from_docx. rewrite Hloop. cbn [bind].
    unfold V102.seg_finish. rewrite Hopen. reflexivity.
Qed.

Lemma end_of_input_witness :
  V102.extract_questions_from_docx no_question_lines = Ok []
  /\ V102.main (Some no_question_lines) V102.DirectDownload = [].
Proof.
  assert (Hq : Forall (fun para => classify para <> QuestionLine)
                      no_question_lines).
  { repeat (constructor; [vm_compute; discriminate|]). constructor. }
  assert (Ho : Forall (fun para => classify para <> OptionLine)
                      no_question_lines).
  { repeat (constructor; [vm_compute; discriminate|]). constructor. }
  destruct (end_of_input no_question_lines Hq Ho) as (H1 & H2 & _).
  split; [exact H1|exact (H2 V102.DirectDownload)].
Defined.

(** C8, as the specification has it, fails on the empty input: the caller
    skips its whole body when the record list is empty, so nothing is
    shown, neither a sheet nor a message that no question was found. *)
Lemma nothing_reported_on_empty_input :
  V102.extract_questions_from_docx [] = Ok []
  /\ V102.main (Some []) V102.DirectDownload = []
  /\ V102.main (Some []) (V102.SaveTo (u8 "D:/Documents") true) = [].
Proof. repeat split. Qed.

(** ** Rows under a header of another type *)

(** C1: a single-choice row with options under the header of a true-false
    first record is not written: [headers.index] finds no column for the
    letter A and raises [ValueError], which the caller shows as an
    error. *)
Theorem choice_row_under_true_false_header_raises :
  V102.extract_questions_from_docx true_false_then_choice
  = Ok [ Question true_false (u8 "It rains") [] (u8 "正确");
         Question single_choice (u8 "Pick") [u8 "x"; u8 "y"] (u8 "A") ]
  /\ V102.headers_of
       [ Question true_false (u8 "It rains") [] (u8 "正确");
         Question single_choice (u8 "Pick") [u8 "x"; u8 "y"] (u8 "A") ]
     = Ok [V102.h_type; V102.h_question; V102.h_true; V102.h_false;
           V102.h_answer]
  /\ V102.write_to_excel
       [ Question true_false (u8 "It rains") [] (u8 "正确");
         Question single_choice (u8 "Pick") [u8 "x"; u8 "y"] (u8 "A") ]
     = Raise (ValueError (u8 "A"))
  /\ V102.main (Some true_false_then_choice) V102.DirectDownload
     = [StError (ValueError (u8 "A"))].
Proof. repeat split; vm_compute; reflexivity. Qed.

(** [create_excel] of [bot_st1.0.1.py] has seven fixed columns and writes
    the same records: the options of the choice row land in the columns
    of A and B, the answers in column 7. *)
Lemma create_excel_writes_mixed_batch :
  let ws :=
    V101.create_excel
      [ Question true_false (u8 "It rains") [] (u8 "正确");
        Question single_choice (u8 "Pick") [u8 "x"; u8 "y"] (u8 "A") ] in
  ws !! (2, 7) = Some (u8 "正确")
  /\ ws !! (3, 3) = Some (u8 "x")
  /\ ws !! (3, 4) = Some (u8 "y")
  /\ ws !! (3, 7) = Some (u8 "A").
Proof. cbv zeta. repeat split; vm_compute; reflexivity. Qed.

(** The caller of [bot_st1.0.1.py] is silent on an empty result as well. *)
Lemma first_variant_silent_on_empty_input : V101.main (Some []) = [].
Proof. reflexivity. Qed.

(** *** When the rows are written and when they are not *)











(** * Further properties *)

(** ** Trimming *)

Lemma lstrip_by_app (p : char -> bool) (a b : str) :
  lstrip_by p (a ++ b)
  = match lstrip_by p a with
    | [] => lstrip_by p b
    | c :: r => (c :: r) ++ b
    end.
Proof.
  induction a as [|c a IH]; [cbn; destruct (lstrip_by p b); reflexivity|].
  cbn [app lstrip_by]. destruct (p c); [exact IH|reflexivity].
Qed.

Lemma lstrip_by_idempotent (p : char -> bool) (s : str) :
  lstrip_by p (lstrip_by p s) = lstrip_by p s.
Proof.
  induction s as [|c s IH]; [reflexivity|].
  cbn [lstrip_by]. destruct (p c) eqn:Hc; [exact IH|].
  cbn [lstrip_by]. rewrite Hc. reflexivity.
Qed.

Lemma rstrip_by_idempotent (p : char -> bool) (s : str) :
  rstrip_by p (rstrip_by p s) = rstrip_by p s.
Proof.
  unfold rstrip_by. rewrite rev_involutive, lstrip_by_idempotent. reflexivity.
Qed.

Lemma rstrip_by_cons (p : char -> bool) (c : char) (s : str) :
  rstrip_by p (c :: s)
  = match rstrip_by p s with
    | [] => if p c then [] else [c]
    | d :: r => c :: d :: r
    end.
Proof.
  unfold rstrip_by. cbn [rev]. rewrite lstrip_by_app.
  destruct (lstrip_by p (rev s)) as [|e r] eqn:Hs.
  - cbn. destruct (p c); reflexivity.
  - cbn [rev]. rewrite rev_app_distr. cbn [rev app].
    destruct (rev r ++ [e]) as [|d r'] eqn:Hr; [|reflexivity].
    apply app_eq_nil in Hr. destruct Hr as [_ Hr]. discriminate.
Qed.

Lemma lstrip_by_rstrip_by (p : char -> bool) (s : str) :
  lstrip_by p s = s -> lstrip_by p (rstrip_by p s) = rstrip_by p s.
Proof.
  destruct s as [|c s]; [reflexivity|].
  cbn [lstrip_by]. destruct (p c) eqn:Hc.
  - intros Heq. exfalso.
    assert (Hlen : length (lstrip_by p s) <= length s).
    { clear. induction s as [|d s IH]; cbn [lstrip_by length]; [lia|].
      destruct (p d); cbn [length]; lia. }
    rewrite Heq in Hlen. cbn [length] in Hlen. lia.
  - intros _. rewrite rstrip_by_cons.
    destruct (rstrip_by p s); rewrite ?Hc; cbn [lstrip_by]; rewrite Hc; reflexivity.
Qed.

Lemma strip_by_idempotent (p : char -> bool) (s : str) :
  strip_by p (strip_by p s) = strip_by p s.
Proof.
  unfold strip_by.
  rewrite (lstrip_by_rstrip_by p (lstrip_by p s) (lstrip_by_idempotent p s)).
  apply rstrip_by_idempotent.
Qed.

Lemma strip_trimmed (s : str) : trimmed (strip s).
Proof. apply strip_by_idempotent. Qed.

Lemma trimmed_nil : trimmed [].
Proof. reflexivity. Qed.

(** ** The loop body by line class *)

Lemma seg_step_by_class (st : seg_state) (para : str) :
  V102.seg_step st para
  = match classify para with
    | Blank | Other => Ok st
    | Marker =>
      Ok (SegState (questions st) (current_question st) (marker_label para))
    | QuestionLine =>
      Ok (SegState (saved_questions st)
            (Some (opened_question (question_type st) para))
            (question_type st))
    | OptionLine =>
      match current_question st with
      | Some q =>
        Ok (SegState (questions st) (Some (with_option q (option_text para)))
              (question_type st))
      | None => Raise (KeyError (u8 "options"))
      end
    end.
Proof.
  unfold classify, V102.seg_step.
  destruct (eqb_str (strip para) []); [reflexivity|].
  destruct (startswith [35; 35]%N (strip para)
            && endswith [35; 35]%N (strip para)); [reflexivity|].
  destruct (re_match question_start (strip para)).
  { unfold opened_question, saved_questions.
    destruct (split_answer _) as [answer question_text]. reflexivity. }
  destruct (re_match option_start (strip para)); reflexivity.
Qed.

Lemma seg_loop_app (a b : list str) (st : seg_state) :
  V102.seg_loop st (a ++ b)
  = (st' <~ V102.seg_loop st a ;; V102.seg_loop st' b).
Proof.
  revert st. induction a as [|para a IH]; intros st; [reflexivity|].
  cbn [app V102.seg_loop]. destruct (V102.seg_step st para); cbn [bind]; auto.
Qed.

Lemma seg_finish_saved (st : seg_state) :
  V102.seg_finish st = saved_questions st.
Proof. reflexivity. Qed.

(** ** Outcome of the segmenter *)

Lemma seg_loop_open (paragraphs : list str) (st : seg_state) (q : question) :
  current_question st = Some q ->
  exists st' q', V102.seg_loop st paragraphs = Ok st'
                 /\ current_question st' = Some q'.
Proof.
  revert st q. induction paragraphs as [|para rest IH]; intros st q Hopen.
  - exists st, q. split; [reflexivity|exact Hopen].
  - cbn [V102.seg_loop]. rewrite seg_step_by_class.
    destruct (classify para); try rewrite Hopen; cbn [bind];
      (eapply IH; cbn [current_question]; try reflexivity; exact Hopen).
Qed.

Lemma seg_loop_closed (paragraphs : list str) (st : seg_state) :
  current_question st = None ->
  if option_comes_first paragraphs
  then V102.seg_loop st paragraphs = Raise (KeyError (u8 "options"))
  else exists st', V102.seg_loop st paragraphs = Ok st'.
Proof.
  revert st. induction paragraphs as [|para rest IH]; intros st Hclosed.
  - exists st. reflexivity.
  - cbn [V102.seg_loop option_comes_first]. rewrite seg_step_by_class.
    destruct (classify para); try rewrite Hclosed; cbn [bind].
    + apply IH. exact Hclosed.
    + apply IH. reflexivity.
    + destruct (seg_loop_open rest
                  (SegState (saved_questions st)
                     (Some (opened_question (question_type st) para))
                     (question_type st))
                  (opened_question (question_type st) para) eq_refl)
        as (st' & _ & Hloop & _).
      exists st'. exact Hloop.
    + reflexivity.
    + apply IH. exact Hclosed.
Qed.

(** X1: the segmenter fails exactly on the inputs whose first question or
    option line is an option line, and then with [KeyError] for
    ['options']; on every other input it returns a record list. *)
Theorem extraction_fails_iff_option_comes_first (paragraphs : list str) :
  if option_comes_first paragraphs
  then V102.extract_questions_from_docx paragraphs
       = Raise (KeyError (u8 "options"))
  else exists qs, V102.extract_questions_from_docx paragraphs = Ok qs.
Proof.
  unfold V102.extract_questions_from_docx.
  pose proof (seg_loop_closed paragraphs seg_init eq_refl) as H.
  destruct (option_comes_first paragraphs).
  - rewrite H. reflexivity.
  - destruct H as (st' & ->). eexists. reflexivity.
Qed.

(** X2: a blank paragraph and a paragraph that is neither marker, question
    line nor option line can be taken out of the input anywhere without
    changing the outcome. *)
Theorem ignored_paragraph_can_be_removed (pre post : list str) (para : str) :
  classify para = Blank \/ classify para = Other ->
  V102.extract_questions_from_docx (pre ++ para :: post)
  = V102.extract_questions_from_docx (pre ++ post).
Proof.
  intros Hclass. unfold V102.extract_questions_from_docx.
  rewrite !seg_loop_app.
  destruct (V102.seg_loop seg_init pre) as [st|e]; [|reflexivity].
  cbn [bind V102.seg_loop]. rewrite seg_step_by_class.
  destruct Hclass as [-> | ->]; reflexivity.
Qed.

Lemma ignored_paragraph_can_be_removed_witness :
  V102.extract_questions_from_docx
    [ u8 "1. Sky{A}"; u8 "A. blue"; u8 "some prose"; u8 "B. red" ]
  = V102.extract_questions_from_docx
      [ u8 "1. Sky{A}"; u8 "A. blue"; u8 "B. red" ].
Proof.
  apply (ignored_paragraph_can_be_removed
           [ u8 "1. Sky{A}"; u8 "A. blue" ] [ u8 "B. red" ] (u8 "some prose")).
  right. vm_compute. reflexivity.
Defined.

Lemma saved_count (paragraphs : list str) (st st' : seg_state) :
  V102.seg_loop st paragraphs = Ok st' ->
  length (saved_questions st')
  = length (saved_questions st) + length (List.filter is_question_line paragraphs).
Proof.
  revert st. induction paragraphs as [|para rest IH]; intros st Hloop.
  - cbn in Hloop. injection Hloop as <-. cbn. lia.
  - cbn [V102.seg_loop] in Hloop. rewrite seg_step_by_class in Hloop.
    cbn [List.filter]. unfold is_question_line at 1.
    destruct (classify para) eqn:Hclass; cbn [bind] in Hloop;
      try (rewrite (IH _ Hloop); reflexivity).
    + rewrite (IH _ Hloop).
      unfold saved_questions at 1. cbn [current_question questions length].
      rewrite length_app. cbn [length]. lia.
    + destruct (current_question st) as [q|] eqn:Hopen; [|discriminate].
      cbn [bind] in Hloop. rewrite (IH _ Hloop).
      unfold saved_questions. cbn [current_question questions]. rewrite Hopen.
      rewrite !length_app. reflexivity.
Qed.

(** X3: a successful run returns exactly one record for each question
    line of the input. *)
Theorem one_record_per_question_line (paragraphs : list str) (qs : list question) :
  V102.extract_questions_from_docx paragraphs = Ok qs ->
  length qs = length (List.filter is_question_line paragraphs).
Proof.
  unfold V102.extract_questions_from_docx. intros Hrun.
  destruct (V102.seg_loop seg_init paragraphs) as [st|e] eqn:Hloop;
    [|discriminate].
  cbn [bind] in Hrun. injection Hrun as <-.
  rewrite seg_finish_saved, (saved_count _ _ _ Hloop). reflexivity.
Qed.

Lemma one_record_per_question_line_witness :
  length [ Question [] (u8 "Sky") [u8 "blue"; u8 "red"] (u8 "A") ]
  = length (List.filter is_question_line blank_and_option_lines).
Proof.
  apply (one_record_per_question_line blank_and_option_lines).
  vm_compute. reflexivity.
Defined.

(** ** What a question line and the lines behind it give *)

Lemma seg_loop_type (paragraphs : list str) (st st' : seg_state) :
  V102.seg_loop st paragraphs = Ok st' ->
  question_type st' = ambient_type (question_type st) paragraphs.
Proof.
  revert st. induction paragraphs as [|para rest IH]; intros st Hloop.
  - cbn in Hloop. injection Hloop as <-. reflexivity.
  - cbn [V102.seg_loop] in Hloop. rewrite seg_step_by_class in Hloop.
    cbn [ambient_type].
    destruct (classify para); cbn [bind] in Hloop;
      try (rewrite (IH _ Hloop); reflexivity).
    destruct (current_question st); [|discriminate].
    cbn [bind] in Hloop. rewrite (IH _ Hloop). reflexivity.
Qed.

Lemma with_options_nil (q : question) : with_options q [] = q.
Proof. destruct q. unfold with_options. cbn. rewrite app_nil_r. reflexivity. Qed.

Lemma with_options_cons (q : question) (o : str) (os : list str) :
  with_options (with_option q o) os = with_options q (o :: os).
Proof.
  unfold with_options, with_option. cbn. rewrite <- app_assoc. reflexivity.
Qed.

(** Behind an open question, lines that are no question lines only add
    their option texts, in order. *)
Lemma seg_loop_body (body : list str) (st : seg_state) (q : question) :
  current_question st = Some q ->
  Forall (fun para => classify para <> QuestionLine) body ->
  V102.seg_loop st body
  = Ok (SegState (questions st)
          (Some (with_options q
                   (map option_text (List.filter is_option_line body))))
          (ambient_type (question_type st) body)).
Proof.
  revert st q. induction body as [|para rest IH]; intros st q Hopen Hbody.
  - cbn. rewrite with_options_nil. destruct st. cbn in Hopen. subst.
    reflexivity.
  - inversion Hbody as [|? ? Hpara Hrest]; subst.
    cbn [V102.seg_loop List.filter ambient_type]. rewrite seg_step_by_class.
    unfold is_option_line at 1.
    destruct (classify para) eqn:Hclass; try rewrite Hopen; cbn [bind].
    + apply IH; assumption.
    + rewrite (IH _ q); [reflexivity|reflexivity|exact Hrest].
    + congruence.
    + rewrite (IH _ (with_option q (option_text para)));
        [|reflexivity|exact Hrest].
      cbn [map]. rewrite with_options_cons. reflexivity.
    + apply IH; assumption.
Qed.

(** X4: behind an input that gave the records [qs], a question line with
    its following lines up to the next question line adds exactly one
    record: its type is the label of the last marker line before it (empty
    without one), stem and answer come from the question line, and its
    options are the texts of the option lines behind it, in their
    order. *)
Theorem question_block_adds_one_record
    (pre body : list str) (qline : str) (qs : list question) :
  V102.extract_questions_from_docx pre = Ok qs ->
  classify qline = QuestionLine ->
  Forall (fun para => classify para <> QuestionLine) body ->
  V102.extract_questions_from_docx (pre ++ qline :: body)
  = Ok (qs ++ [ with_options (opened_question (ambient_type [] pre) qline)
                  (map option_text (List.filter is_option_line body)) ]).
Proof.
  unfold V102.extract_questions_from_docx. intros Hpre Hq Hbody.
  destruct (V102.seg_loop seg_init pre) as [st|e] eqn:Hloop; [|discriminate].
  cbn [bind] in Hpre. injection Hpre as <-.
  rewrite seg_loop_app, Hloop. cbn [bind V102.seg_loop].
  rewrite seg_step_by_class, Hq. cbn [bind].
  rewrite (seg_loop_body body
             (SegState (saved_questions st)
                (Some (opened_question (question_type st) qline))
                (question_type st))
             (opened_question (question_type st) qline) eq_refl Hbody).
  cbn [bind]. rewrite (seg_loop_type _ _ _ Hloop). reflexivity.
Qed.

Lemma question_block_adds_one_record_witness :
  V102.extract_questions_from_docx
    ([ u8 "##单选题##"; u8 "1. Sky{A}"; u8 "A. blue" ]
     ++ u8 "2. Sea{B}" :: [ u8 "A. dry"; u8 "prose"; u8 "B. wet" ])
  = Ok ([ Question single_choice (u8 "Sky") [u8 "blue"] (u8 "A") ]
        ++ [ Question single_choice (u8 "Sea") [u8 "dry"; u8 "wet"] (u8 "B") ]).
Proof.
  refine (eq_trans
            (question_block_adds_one_record
               [ u8 "##单选题##"; u8 "1. Sky{A}"; u8 "A. blue" ]
               [ u8 "A. dry"; u8 "prose"; u8 "B. wet" ] (u8 "2. Sea{B}")
               [ Question single_choice (u8 "Sky") [u8 "blue"] (u8 "A") ]
               _ _ _) _).
  - vm_compute. reflexivity.
  - vm_compute. reflexivity.
  - repeat (constructor; [vm_compute; discriminate|]). constructor.
  - vm_compute. reflexivity.
Defined.

(** ** Trimmed fields *)

Lemma saved_trimmed (st : seg_state) :
  state_trimmed st -> Forall trimmed_question (saved_questions st).
Proof.
  intros (_ & Hqs & Hcur). unfold saved_questions.
  destruct (current_question st) as [q|]; [|exact Hqs].
  apply Forall_app. split; [exact Hqs|]. constructor; [|constructor].
  apply Hcur. reflexivity.
Qed.

Lemma opened_question_trimmed (ty para : str) :
  trimmed ty -> trimmed_question (opened_question ty para).
Proof.
  intros Hty. unfold opened_question.
  destruct (split_answer _) as [answer question_text].
  split; [exact Hty|]. split; [apply strip_trimmed|constructor].
Qed.

Lemma seg_step_trimmed (st st' : seg_state) (para : str) :
  state_trimmed st -> V102.seg_step st para = Ok st' -> state_trimmed st'.
Proof.
  intros Hst. rewrite seg_step_by_class.
  destruct (classify para).
  - intros [= <-]. exact Hst.
  - intros [= <-]. destruct Hst as (_ & Hqs & Hcur).
    split; [apply strip_trimmed|]. split; assumption.
  - intros [= <-]. split; [apply Hst|]. split; [apply saved_trimmed, Hst|].
    cbn [current_question]. intros q [= <-].
    apply opened_question_trimmed. apply Hst.
  - destruct (current_question st) as [q|] eqn:Hopen; [|discriminate].
    intros [= <-]. destruct Hst as (Hty & Hqs & Hcur).
    split; [exact Hty|]. split; [exact Hqs|].
    cbn [current_question]. intros q' [= <-].
    destruct (Hcur q Hopen) as (H1 & H2 & H3).
    split; [exact H1|]. split; [exact H2|].
    cbn [with_option q_options]. apply Forall_app. split; [exact H3|].
    constructor; [apply strip_trimmed|constructor].
  - intros [= <-]. exact Hst.
Qed.

Lemma seg_loop_trimmed (paragraphs : list str) (st st' : seg_state) :
  state_trimmed st -> V102.seg_loop st paragraphs = Ok st' -> state_trimmed st'.
Proof.
  revert st. induction paragraphs as [|para rest IH]; intros st Hst Hloop.
  - cbn in Hloop. injection Hloop as <-. exact Hst.
  - cbn [V102.seg_loop] in Hloop.
    destruct (V102.seg_step st para) as [st1|e] eqn:Hstep; [|discriminate].
    cbn [bind] in Hloop.
    exact (IH st1 (seg_step_trimmed st st1 para Hst Hstep) Hloop).
Qed.

(** X5: in every record the segmenter returns, the type label, the stem
    and each option text have no whitespace at either end. *)
Theorem extracted_fields_are_trimmed (paragraphs : list str) (qs : list question) :
  V102.extract_questions_from_docx paragraphs = Ok qs ->
  Forall trimmed_question qs.
Proof.
  unfold V102.extract_questions_from_docx. intros Hrun.
  destruct (V102.seg_loop seg_init paragraphs) as [st|e] eqn:Hloop;
    [|discriminate].
  cbn [bind] in Hrun. injection Hrun as <-.
  rewrite seg_finish_saved. apply saved_trimmed.
  apply (seg_loop_trimmed paragraphs seg_init st); [|exact Hloop].
  split; [apply trimmed_nil|]. split; [constructor|]. intros q [=].
Qed.

Lemma extracted_fields_are_trimmed_witness :
  Forall trimmed_question
    [ Question (u8 "单选题") (u8 "Sky") [u8 "blue"] (u8 " A ") ].
Proof.
  apply (extracted_fields_are_trimmed
           [ u8 "## 单选题 ##"; u8 "  1.   Sky { A }  "; u8 "A.   blue  " ]).
  vm_compute. reflexivity.
Defined.

Lemma seg_step_strip (st : seg_state) (para : str) :
  V102.seg_step st (strip para) = V102.seg_step st para.
Proof.
  unfold V102.seg_step. pose proof (strip_trimmed para) as H.
  unfold trimmed in H. rewrite H. reflexivity.
Qed.

Lemma seg_loop_strip (paragraphs : list str) (st : seg_state) :
  V102.seg_loop st (map strip paragraphs) = V102.seg_loop st paragraphs.
Proof.
  revert st. induction paragraphs as [|para rest IH]; intros st; [reflexivity|].
  cbn [map V102.seg_loop]. rewrite seg_step_strip.
  destruct (V102.seg_step st para); cbn [bind]; auto.
Qed.

(** X6: whitespace around a paragraph never matters: trimming every
    paragraph beforehand gives the same outcome. *)
Theorem surrounding_whitespace_is_ignored (paragraphs : list str) :
  V102.extract_questions_from_docx (map strip paragraphs)
  = V102.extract_questions_from_docx paragraphs.
Proof.
  unfold V102.extract_questions_from_docx. rewrite seg_loop_strip. reflexivity.
Qed.

(** ** Typing loop *)

Lemma determine_question_type_label (q : question) :
  V102.determine_question_type q
    ∈ [single_choice; multi_choice; true_false].
Proof.
  unfold V102.determine_question_type.
  repeat match goal with |- context [if ?b then _ else _] => destruct b end;
    set_solver.
Qed.

Lemma determine_question_type_nonempty (q : question) :
  V102.determine_question_type q <> [].
Proof.
  destruct labels_distinct as (H1 & H2 & H3 & _).
  pose proof (determine_question_type_label q) as Hin.
  intros Heq. rewrite Heq in Hin.
  rewrite !elem_of_cons in Hin. rewrite elem_of_nil in Hin.
  destruct Hin as [E|[E|[E|[]]]]; congruence.
Qed.

Lemma assign_type_nonempty (q : question) : q_type (V102.assign_type q) <> [].
Proof.
  unfold V102.assign_type, eqb_str. case_bool_decide as Hty.
  - cbn [q_type]. apply determine_question_type_nonempty.
  - exact Hty.
Qed.

Lemma assign_type_idempotent (q : question) :
  V102.assign_type (V102.assign_type q) = V102.assign_type q.
Proof.
  pose proof (assign_type_nonempty q) as Hne.
  unfold V102.assign_type at 1. unfold eqb_str.
  rewrite bool_decide_eq_false_2 by exact Hne. reflexivity.
Qed.

(** X7: after the typing loop no record has an empty type, and running the
    loop again on its own result changes nothing, so exporting the same
    records twice types them the same way. *)
Theorem typing_loop_is_idempotent (qs : list question) :
  Forall (fun q => q_type q <> []) (V102.processed_questions qs)
  /\ V102.processed_questions (V102.processed_questions qs)
     = V102.processed_questions qs.
Proof.
  unfold V102.processed_questions. split.
  - apply Forall_fmap, Forall_forall. intros q _.
    apply assign_type_nonempty.
  - rewrite <- list_fmap_compose. apply list_fmap_ext.
    intros i q _. apply assign_type_idempotent.
Qed.

Lemma upper_char_option_letter (c : char) :
  is_option_letter c = true ->
  exists d, upper_char c = [d] /\ in_AK d = true.
Proof.
  unfold is_option_letter. intros H.
  assert (Hall : forallb (fun n => match upper_char (N.of_nat n) with
                                   | [d] => in_AK d
                                   | _ => false
                                   end)
                         (seq 65 11 ++ seq 97 11) = true)
    by (vm_compute; reflexivity).
  rewrite forallb_forall in Hall. specialize (Hall (N.to_nat c)).
  rewrite N2Nat.id in Hall.
  assert (Hin : In (N.to_nat c) (seq 65 11 ++ seq 97 11)).
  { apply in_app_iff. rewrite !in_seq.
    apply orb_true_iff in H. destruct H as [H|H];
      apply andb_true_iff in H as [H1 H2]; apply N.leb_le in H1, H2; lia. }
  specialize (Hall Hin).
  destruct (upper_char c) as [|d [|? ?]]; try discriminate.
  exists d. split; [reflexivity|exact Hall].
Qed.

Lemma upper_option_letters (a : str) :
  forallb is_option_letter a = true ->
  length (upper a) = length a /\ forallb in_AK (upper a) = true.
Proof.
  induction a as [|c a IH]; intros Hall; [split; reflexivity|].
  cbn [forallb] in Hall. apply andb_true_iff in Hall as [Hc Ha].
  destruct (upper_char_option_letter c Hc) as (d & Hd & HAK).
  destruct (IH Ha) as [Hlen Hall].
  unfold upper in *. cbn [map concat]. rewrite Hd. cbn [app length forallb].
  rewrite HAK, Hall, Hlen. split; reflexivity.
Qed.

Lemma judge_token_shape (a : str) :
  a ∈ V102.judge_tokens ->
  length a = 1 \/ exists c r, a = c :: r /\ in_AK c = false.
Proof.
  intros Hin. unfold V102.judge_tokens in Hin.
  repeat (apply elem_of_cons in Hin as [->|Hin];
          [first [left; reflexivity
                 |right; eexists _, _; split; vm_compute; reflexivity]|]).
  apply elem_of_nil in Hin. contradiction.
Qed.

(** X8: an answer of two or more option letters, a to k in either case and
    with any whitespace around it, is typed multi-choice. *)
Theorem option_letters_give_multi_choice (q : question) :
  2 <= length (strip (q_answer q)) ->
  forallb is_option_letter (strip (q_answer q)) = true ->
  V102.determine_question_type q = multi_choice.
Proof.
  intros Hlen Hall. unfold V102.determine_question_type.
  destruct (upper_option_letters _ Hall) as [Hulen HAK].
  rewrite bool_decide_eq_false_2.
  - replace (forallb (fun c => contains [c] V102.letters_AK)
               (upper (strip (q_answer q))))
      with (forallb in_AK (upper (strip (q_answer q))))
      by (apply forallb_pointwise; intros c; symmetry; apply contains_letter).
    rewrite HAK, Hulen.
    replace (1 <? length (strip (q_answer q))) with true; [reflexivity|].
    symmetry. apply Nat.ltb_lt. lia.
  - intros Htoken. destruct (judge_token_shape _ Htoken) as [H1|(c & r & Heq & Hc)].
    + lia.
    + rewrite Heq in HAK. cbn [forallb] in HAK. rewrite Hc in HAK. discriminate.
Qed.

Lemma option_letters_give_multi_choice_witness :
  V102.determine_question_type
    (Question [] (u8 "Pick") [u8 "x"; u8 "y"; u8 "z"] (u8 "  aC "))
  = multi_choice.
Proof.
  apply (option_letters_give_multi_choice
           (Question [] (u8 "Pick") [u8 "x"; u8 "y"; u8 "z"] (u8 "  aC "))).
  - vm_compute. lia.
  - vm_compute. reflexivity.
Defined.

(** ** Option letters *)

Lemma lt_max_options (qs : list question) (i : nat) :
  i < max_options qs <-> exists q, q ∈ qs /\ i < length (q_options q).
Proof.
  induction qs as [|q qs IH]; cbn [max_options foldr].
  - split; [lia|]. intros (q & Hq & _). apply elem_of_nil in Hq. contradiction.
  - fold (max_options qs). split.
    + intros Hi. destruct (Nat.max_spec (length (q_options q)) (max_options qs))
        as [[_ Hm]|[_ Hm]]; rewrite Hm in Hi.
      * apply IH in Hi. destruct Hi as (q' & Hq' & Hi).
        exists q'. split; [right; exact Hq'|exact Hi].
      * exists q. split; [left|exact Hi].
    + intros (q' & Hq' & Hi). apply elem_of_cons in Hq'.
      destruct Hq' as [->|Hq']; [lia|].
      assert (i < max_options qs) by (apply IH; eauto). lia.
Qed.

Lemma letter_codes_sorted (m i : nat) :
  Sorted N.le (map (fun k => (65 + N.of_nat k)%N) (seq i m)).
Proof.
  revert i. induction m as [|m IH]; intros i; cbn [seq map]; [constructor|].
  constructor; [apply IH|].
  destruct m; cbn [seq map]; constructor. lia.
Qed.

Lemma sorted_letter_codes_contiguous (qs : list question) :
  sorted_letter_codes qs
  = map (fun k => (65 + N.of_nat k)%N) (seq 0 (max_options qs)).
Proof.
  destruct (sorted_letter_codes_spec qs) as (Hsorted & Hnodup & Hmem).
  apply (Sorted_unique N.le); [exact Hsorted|apply letter_codes_sorted|].
  apply NoDup_Permutation; [exact Hnodup| |].
  - apply NoDup_fmap_2; [intros a b Hab; lia|apply NoDup_seq].
  - intros c. rewrite Hmem, list_elem_of_fmap. split.
    + intros (q & i & Hq & Hi & ->). exists i. split; [reflexivity|].
      apply elem_of_seq. assert (i < max_options qs) by (apply lt_max_options; eauto).
      lia.
    + intros (i & -> & Hi). apply elem_of_seq in Hi.
      destruct (proj1 (lt_max_options qs i)) as (q & Hq & Hlen); [lia|].
      exists q, i. auto.
Qed.

(** X9: the letter columns are A, B, C, ... without a gap, one for each
    option position up to the longest option list of the batch. *)
Theorem option_letters_are_contiguous (qs : list question) :
  V102.get_option_letters qs = letters_upto (max_options qs).
Proof.
  rewrite get_option_letters_codes, sorted_letter_codes_contiguous.
  unfold letters_upto. rewrite <- list_fmap_compose. reflexivity.
Qed.

(** ** Cells *)




(** ** Rows of the sheet *)
















(** ** The sheet of [bot_st1.0.1.py] *)





(** ** Errors the page can show *)





(** ** The line patterns *)

Lemma match_here_cons (it : item) (re : regex) (s : str) :
  match_here (it :: re) s
  = match i_quant it with
    | Once =>
      match s with
      | c :: s' => if i_class it c then push [c] (match_here re s') else None
      | [] => None
      end
    | Opt =>
      match s with
      | c :: s' =>
        if i_class it c then
          match match_here re s' with
          | Some m => push [c] (Some m)
          | None => push [] (match_here re s)
          end
        else push [] (match_here re s)
      | [] => push [] (match_here re s)
      end
    | Plus => push_plus (greedy_plus (i_class it) (match_here re) s)
    | PlusLazy => push_plus (lazy_plus (i_class it) (match_here re) s)
    end.
Proof. reflexivity. Qed.

Lemma greedy_plus_sound (p : char -> bool) (k : str -> option match_result)
    (s seg : str) (m : match_result) :
  greedy_plus p k s = Some (seg, m) ->
  exists s', s = seg ++ s' /\ seg <> [] /\ forallb p seg = true /\ k s' = Some m.
Proof.
  revert seg. induction s as [|c s IH]; intros seg; cbn [greedy_plus];
    [discriminate|].
  destruct (p c) eqn:Hc; [|discriminate].
  destruct (greedy_plus p k s) as [[seg' m']|].
  - intros [= <- <-]. destruct (IH seg' eq_refl) as (s' & -> & Hne & Hall & Hk).
    exists s'. cbn [forallb]. rewrite Hc, Hall. repeat split; try assumption.
    discriminate.
  - destruct (k s) as [m'|] eqn:Hk; [|discriminate].
    intros [= <- <-]. exists s. cbn [forallb]. rewrite Hc.
    repeat split; try assumption. discriminate.
Qed.

Lemma greedy_plus_stops (p : char -> bool) (k : str -> option match_result)
    (s : str) :
  match s with [] => True | c :: _ => p c = false end ->
  greedy_plus p k s = None.
Proof. destruct s as [|c s]; cbn [greedy_plus]; [reflexivity|]. intros ->. reflexivity. Qed.

Lemma greedy_plus_complete (p : char -> bool) (k : str -> option match_result)
    (seg s' : str) (m : match_result) :
  seg <> [] -> forallb p seg = true ->
  match s' with [] => True | c :: _ => p c = false end ->
  k s' = Some m ->
  greedy_plus p k (seg ++ s') = Some (seg, m).
Proof.
  intros Hne Hall Hstop Hk. induction seg as [|c seg IH]; [congruence|].
  cbn [forallb] in Hall. apply andb_true_iff in Hall as [Hc Hall].
  cbn [app greedy_plus]. rewrite Hc. destruct seg as [|c' seg].
  - cbn [app]. rewrite (greedy_plus_stops p k s' Hstop), Hk. reflexivity.
  - rewrite IH by (try discriminate; exact Hall). reflexivity.
Qed.

Lemma whitespace_facts (w : char) :
  isspace w = true -> isdecimal w = false /\ w <> 46%N /\ w <> 35%N.
Proof.
  unfold isspace. intros Hw. apply bool_decide_eq_true in Hw.
  apply list_elem_of_In in Hw.
  assert (Hall : forallb (fun c => negb (isdecimal c) && negb (c =? 46)%N
                                   && negb (c =? 35)%N)
                         whitespace_table = true)
    by (vm_compute; reflexivity).
  rewrite forallb_forall in Hall. specialize (Hall w Hw).
  apply andb_true_iff in Hall as [Hall H35].
  apply andb_true_iff in Hall as [Hdec H46].
  apply negb_true_iff in Hdec, H46, H35.
  apply N.eqb_neq in H46, H35. auto.
Qed.

(** The last two items of both line patterns: an optional full stop and
    one whitespace character. *)
Lemma match_here_separator (re_tail : regex) (s : str) (m : match_result) :
  match_here (Item (is_char 46) Opt :: Item isspace Once :: re_tail) s = Some m
  <-> exists dot w rest tail_groups,
        s = dot ++ w :: rest /\ (dot = [] \/ dot = [46%N])
        /\ isspace w = true
        /\ match_here re_tail rest = Some (tail_groups, snd m)
        /\ fst m = dot :: [w] :: tail_groups.
Proof.
  rewrite match_here_cons. cbn [i_quant i_class].
  assert (Hspace : forall t m',
            match_here (Item isspace Once :: re_tail) t = Some m'
            <-> exists w rest tg, t = w :: rest /\ isspace w = true
                  /\ match_here re_tail rest = Some (tg, snd m')
                  /\ fst m' = [w] :: tg).
  { intros t m'. rewrite match_here_cons. cbn [i_quant i_class].
    destruct t as [|w rest].
    - split; [discriminate|]. intros (? & ? & ? & [=] & _).
    - destruct (isspace w) eqn:Hw.
      + destruct (match_here re_tail rest) as [[tg r]|] eqn:Ht; cbn [push].
        * split.
          -- intros [= <-]. exists w, rest, tg. auto.
          -- intros (w' & rest' & tg' & [= <- <-] & _ & Ht' & Hfst).
             destruct m' as [gs r']. cbn [fst snd] in *.
             rewrite Ht in Ht'. injection Ht' as <- <-. subst gs. reflexivity.
        * split; [discriminate|].
          intros (w' & rest' & tg' & [= <- <-] & _ & Ht' & _).
          rewrite Ht in Ht'. discriminate.
      + split; [discriminate|].
        intros (w' & rest' & tg' & [= <- <-] & Hw' & _). congruence. }
  split.
  - intros Hm.
    assert (Hskip : push [] (match_here (Item isspace Once :: re_tail) s) = Some m ->
                    exists dot w rest tg,
                      s = dot ++ w :: rest /\ (dot = [] \/ dot = [46%N])
                      /\ isspace w = true
                      /\ match_here re_tail rest = Some (tg, snd m)
                      /\ fst m = dot :: [w] :: tg).
    { destruct (match_here (Item isspace Once :: re_tail) s) as [[gs r]|] eqn:Hs;
        [|discriminate].
      cbn [push]. intros [= <-]. apply Hspace in Hs.
      destruct Hs as (w & rest & tg & -> & Hw & Ht & Hfst).
      cbn [fst snd] in *. subst gs. exists [], w, rest, tg. auto. }
    destruct s as [|c s']; [exact (Hskip Hm)|].
    unfold is_char in Hm. destruct (N.eqb_spec 46 c) as [<-|Hc]; [|exact (Hskip Hm)].
    destruct (match_here (Item isspace Once :: re_tail) s') as [[gs r]|] eqn:Hs;
      [|exact (Hskip Hm)].
    cbn [push] in Hm. injection Hm as <-. apply Hspace in Hs.
    destruct Hs as (w & rest & tg & -> & Hw & Ht & Hfst).
    cbn [fst snd] in *. subst gs. exists [46%N], w, rest, tg. auto.
  - intros (dot & w & rest & tg & -> & Hdot & Hw & Ht & Hfst).
    destruct (whitespace_facts w Hw) as (_ & H46 & _).
    assert (Hsp : match_here (Item isspace Once :: re_tail) (w :: rest)
                  = Some ([w] :: tg, snd m)).
    { apply Hspace. exists w, rest, tg. auto. }
    destruct m as [gs r]. cbn [fst snd] in *. subst gs.
    destruct Hdot as [-> | ->]; cbn [app].
    + unfold is_char. destruct (N.eqb_spec 46 w) as [E|_]; [congruence|].
      rewrite Hsp. reflexivity.
    + unfold is_char. cbn [N.eqb Pos.eqb]. rewrite Hsp. reflexivity.
Qed.

Lemma match_here_option_start (s : str) (m : match_result) :
  match_here option_start s = Some m
  <-> exists letter dot w rest,
        s = letter :: dot ++ w :: rest
        /\ letter ∈ [65; 66; 67; 68]%N
        /\ (dot = [] \/ dot = [46%N]) /\ isspace w = true
        /\ m = ([[letter]; dot; [w]], rest).
Proof.
  unfold option_start. rewrite match_here_cons. cbn [i_quant i_class].
  destruct s as [|c s'].
  { split; [discriminate|]. intros (? & ? & ? & ? & [=] & _). }
  unfold one_of. case_bool_decide as Hc.
  - destruct (match_here [Item (is_char 46) Opt; Item isspace Once] s')
      as [m'|] eqn:Hsep; cbn [push].
    + apply match_here_separator in Hsep.
      destruct Hsep as (dot & w & rest & tg & -> & Hdot & Hw & Htail & Hfst).
      destruct m' as [gs r]. cbn [fst snd match_here] in *.
      injection Htail as <- <-. subst gs. split.
      * intros [= <-]. exists c, dot, w, rest. auto.
      * intros (l' & dot' & w' & rest' & Heq & _ & Hdot' & Hw' & ->).
        injection Heq as <- Heq.
        assert (dot' = dot /\ w' = w /\ rest' = rest) as (-> & -> & ->);
          [|reflexivity].
        destruct (whitespace_facts w Hw) as (_ & H46 & _).
        destruct (whitespace_facts w' Hw') as (_ & H46' & _).
        destruct Hdot as [-> | ->], Hdot' as [-> | ->]; cbn [app] in Heq;
          injection Heq; intros; subst; try congruence; auto.
    + split; [discriminate|].
      intros (l' & dot & w & rest & [= <- ->] & _ & Hdot & Hw & _).
      assert (Hm : match_here [Item (is_char 46) Opt; Item isspace Once]
                     (dot ++ w :: rest) = Some ([dot; [w]], rest)).
      { apply match_here_separator. exists dot, w, rest, []. auto. }
      rewrite Hm in Hsep. discriminate.
  - split; [discriminate|].
    intros (l' & dot & w & rest & [= <- ->] & Hl & _). contradiction.
Qed.

(** X14: a trimmed line is an option line exactly when it is one of the
    letters A to D, then an optional full stop, then one whitespace
    character, then anything; what follows that whitespace character is
    the text kept for the option (before trimming). *)
Theorem option_line_grammar (s : str) :
  (re_match option_start s = true
   <-> exists letter dot w rest,
         s = letter :: dot ++ w :: rest
         /\ letter ∈ [65; 66; 67; 68]%N
         /\ (dot = [] \/ dot = [46%N]) /\ isspace w = true)
  /\ forall letter dot w rest,
       s = letter :: dot ++ w :: rest ->
       letter ∈ [65; 66; 67; 68]%N ->
       dot = [] \/ dot = [46%N] -> isspace w = true ->
       re_sub_start option_start s = rest.
Proof.
  unfold re_match, re_sub_start. split.
  - destruct (match_here option_start s) as [m|] eqn:Hm.
    + apply match_here_option_start in Hm.
      destruct Hm as (l & dot & w & rest & H). split; [|reflexivity].
      intros _. exists l, dot, w, rest. tauto.
    + split; [discriminate|].
      intros (l & dot & w & rest & Hs & Hl & Hdot & Hw).
      assert (Hyes : match_here option_start s = Some ([[l]; dot; [w]], rest))
        by (apply match_here_option_start; exists l, dot, w, rest; auto).
      rewrite Hyes in Hm. discriminate.
  - intros l dot w rest Hs Hl Hdot Hw.
    assert (Hyes : match_here option_start s = Some ([[l]; dot; [w]], rest))
      by (apply match_here_option_start; exists l, dot, w, rest; auto).
    rewrite Hyes. reflexivity.
Qed.

Lemma option_line_grammar_witness :
  re_sub_start option_start (u8 "B. wet") = u8 "wet".
Proof.
  apply (proj2 (option_line_grammar (u8 "B. wet")) 66%N [46%N] 32%N (u8 "wet")).
  - vm_compute. reflexivity.
  - by_evaluation.
  - right. reflexivity.
  - vm_compute. reflexivity.
Defined.

Lemma match_here_number (s : str) (m : match_result) :
  match_here [ Item isdecimal Plus; Item (is_char 46) Opt; Item isspace Once ] s
  = Some m
  -> exists digits dot w rest,
       s = digits ++ dot ++ w :: rest
       /\ digits <> [] /\ forallb isdecimal digits = true
       /\ (dot = [] \/ dot = [46%N]) /\ isspace w = true
       /\ m = ([digits; dot; [w]], rest).
Proof.
  rewrite match_here_cons. cbn [i_quant i_class].
  destruct (greedy_plus isdecimal
              (match_here [Item (is_char 46) Opt; Item isspace Once]) s)
    as [[seg [gs r]]|] eqn:Hg; [|discriminate].
  cbn [push_plus]. intros [= <-].
  apply greedy_plus_sound in Hg.
  destruct Hg as (s' & -> & Hne & Hall & Hsep).
  apply match_here_separator in Hsep.
  destruct Hsep as (dot & w & rest & tg & -> & Hdot & Hw & Htail & Hfst).
  cbn [fst snd match_here] in *. injection Htail as <- <-. subst gs.
  exists seg, dot, w, rest. repeat split; try assumption; reflexivity.
Qed.

Lemma match_here_number_complete (digits dot rest : str) (w : char) :
  digits <> [] -> forallb isdecimal digits = true ->
  dot = [] \/ dot = [46%N] -> isspace w = true ->
  match_here [ Item isdecimal Plus; Item (is_char 46) Opt; Item isspace Once ]
    (digits ++ dot ++ w :: rest)
  = Some ([digits; dot; [w]], rest).
Proof.
  intros Hne Hall Hdot Hw. rewrite match_here_cons. cbn [i_quant i_class].
  rewrite (greedy_plus_complete isdecimal _ digits (dot ++ w :: rest)
             ([dot; [w]], rest) Hne Hall); [reflexivity| |].
  - destruct (whitespace_facts w Hw) as (Hdec & _).
    destruct Hdot as [-> | ->]; cbn [app]; [exact Hdec|].
    vm_compute. reflexivity.
  - apply match_here_separator. exists dot, w, rest, [].
    repeat split; try assumption; reflexivity.
Qed.

Lemma match_here_question_start (s : str) (m : match_result) :
  match_here question_start s = Some m ->
  exists hash digits dot w rest,
    s = hash ++ digits ++ dot ++ w :: rest
    /\ (hash = [] \/ hash = [35%N])
    /\ digits <> [] /\ forallb isdecimal digits = true
    /\ (dot = [] \/ dot = [46%N]) /\ isspace w = true
    /\ m = ([hash; digits; dot; [w]], rest).
Proof.
  unfold question_start. rewrite match_here_cons. cbn [i_quant i_class].
  set (number := [ Item isdecimal Plus; Item (is_char 46) Opt;
                   Item isspace Once ]).
  assert (Hplain : forall t,
            push [] (match_here number t) = Some m ->
            exists hash digits dot w rest,
              t = hash ++ digits ++ dot ++ w :: rest
              /\ (hash = [] \/ hash = [35%N])
              /\ digits <> [] /\ forallb isdecimal digits = true
              /\ (dot = [] \/ dot = [46%N]) /\ isspace w = true
              /\ m = ([hash; digits; dot; [w]], rest)).
  { intros t. destruct (match_here number t) as [m0|] eqn:Hn; [|discriminate].
    apply match_here_number in Hn.
    destruct Hn as (digits & dot & w & rest & -> & Hne & Hall & Hdot & Hw & ->).
    cbn [push]. intros [= <-]. exists [], digits, dot, w, rest.
    repeat split; try assumption; try reflexivity. left. reflexivity. }
  destruct s as [|c s']; [apply Hplain|].
  unfold is_char. destruct (N.eqb_spec 35 c) as [<-|Hc]; [|apply Hplain].
  destruct (match_here number s') as [m0|] eqn:Hn; [|apply Hplain].
  apply match_here_number in Hn.
  destruct Hn as (digits & dot & w & rest & -> & Hne & Hall & Hdot & Hw & ->).
  cbn [push]. intros [= <-]. exists [35%N], digits, dot, w, rest.
  repeat split; try assumption; try reflexivity. right. reflexivity.
Qed.

Lemma match_here_question_start_complete (hash digits dot rest : str) (w : char) :
  hash = [] \/ hash = [35%N] ->
  digits <> [] -> forallb isdecimal digits = true ->
  dot = [] \/ dot = [46%N] -> isspace w = true ->
  match_here question_start (hash ++ digits ++ dot ++ w :: rest)
  = Some ([hash; digits; dot; [w]], rest).
Proof.
  intros Hhash Hne Hall Hdot Hw.
  pose proof (match_here_number_complete digits dot rest w Hne Hall Hdot Hw)
    as Hn.
  unfold question_start. rewrite match_here_cons. cbn [i_quant i_class].
  destruct Hhash as [-> | ->]; cbn [app].
  - destruct digits as [|d digits]; [congruence|]. cbn [app] in *.
    assert (Hd : is_char 35 d = false).
    { unfold is_char. destruct (N.eqb_spec 35 d) as [<-|_]; [|reflexivity].
      cbn [forallb] in Hall. apply andb_true_iff in Hall as [Hd _].
      vm_compute in Hd. discriminate. }
    rewrite Hd, Hn. reflexivity.
  - replace (is_char 35 35) with true by reflexivity.
    rewrite Hn. reflexivity.
Qed.

(** X15: a trimmed line is a question line exactly when it is an optional
    [#], then one or more decimal digits, then an optional full stop, then
    one whitespace character, then anything; what follows that whitespace
    character is the text from which answer and stem are taken. *)
Theorem question_line_grammar (s : str) :
  (re_match question_start s = true
   <-> exists hash digits dot w rest,
         s = hash ++ digits ++ dot ++ w :: rest
         /\ (hash = [] \/ hash = [35%N])
         /\ digits <> [] /\ forallb isdecimal digits = true
         /\ (dot = [] \/ dot = [46%N]) /\ isspace w = true)
  /\ forall hash digits dot w rest,
       s = hash ++ digits ++ dot ++ w :: rest ->
       hash = [] \/ hash = [35%N] ->
       digits <> [] -> forallb isdecimal digits = true ->
       dot = [] \/ dot = [46%N] -> isspace w = true ->
       re_sub_start question_start s = rest.
Proof.
  unfold re_match, re_sub_start. split.
  - destruct (match_here question_start s) as [m|] eqn:Hm.
    + apply match_here_question_start in Hm.
      destruct Hm as (hash & digits & dot & w & rest & H).
      split; [|reflexivity]. intros _. exists hash, digits, dot, w, rest. tauto.
    + split; [discriminate|].
      intros (hash & digits & dot & w & rest & -> & Hhash & Hne & Hall & Hdot & Hw).
      rewrite (match_here_question_start_complete hash digits dot rest w)
        in Hm by assumption.
      discriminate.
  - intros hash digits dot w rest -> Hhash Hne Hall Hdot Hw.
    rewrite (match_here_question_start_complete hash digits dot rest w)
      by assumption.
    reflexivity.
Qed.

Lemma question_line_grammar_witness :
  re_sub_start question_start (u8 "#12. Sea{B}") = u8 "Sea{B}".
Proof.
  apply (proj2 (question_line_grammar (u8 "#12. Sea{B}"))
           [35%N] (u8 "12") [46%N] 32%N (u8 "Sea{B}")).
  - vm_compute. reflexivity.
  - right. reflexivity.
  - vm_compute. discriminate.
  - vm_compute. reflexivity.
  - right. reflexivity.
  - vm_compute. reflexivity.
Defined.

(** ** No answer mark is left in a stem *)

Lemma closes_split (u : str) :
  closes u = true ->
  exists inner post,
    u = inner ++ 125%N :: post /\ (10%N ∉ inner) /\ (125%N ∉ inner).
Proof.
  induction u as [|c u IH]; cbn [closes]; [discriminate|].
  destruct (N.eqb_spec c 125) as [->|H125].
  - intros _. exists [], u. split; [reflexivity|]. split; apply not_elem_of_nil.
  - destruct (N.eqb_spec c 10) as [->|H10]; [discriminate|].
    intros Hu. destruct (IH Hu) as (inner & post & -> & Hnl & Hcl).
    exists (c :: inner), post. split; [reflexivity|].
    split; apply not_elem_of_cons; split; congruence.
Qed.

Lemma closes_app (inner post : str) :
  10%N ∉ inner -> closes (inner ++ 125%N :: post) = true.
Proof.
  induction inner as [|c inner IH]; intros Hnl; cbn [app closes]; [reflexivity|].
  apply not_elem_of_cons in Hnl as [Hc Hnl].
  destruct (N.eqb_spec c 125); [reflexivity|].
  destruct (N.eqb_spec c 10); [congruence|]. apply IH. exact Hnl.
Qed.

Lemma lazy_plus_none (u : str) (x : char) :
  closes u = false ->
  lazy_plus dot (match_here closing) (x :: u) = None.
Proof.
  revert x. induction u as [|y u IH]; intros x Hu; rewrite lazy_plus_cons.
  - destruct (dot x); reflexivity.
  - cbn [closes] in Hu.
    destruct (N.eqb_spec y 125) as [->|H125]; [discriminate|].
    rewrite match_here_closing_other by exact H125.
    destruct (N.eqb_spec y 10) as [->|H10].
    + rewrite lazy_plus_cons. cbn [dot N.eqb Pos.eqb negb].
      destruct (dot x); reflexivity.
    + rewrite (IH y Hu). destruct (dot x); reflexivity.
Qed.

(** An answer mark starts at an opening brace exactly when the text
    behind the brace [opens]. *)
Lemma match_here_opens (t : str) :
  if opens t
  then exists x inner post,
         t = x :: inner ++ 125%N :: post
         /\ (10%N ∉ x :: inner) /\ (125%N ∉ inner)
  else match_here answer_mark (123%N :: t) = None.
Proof.
  destruct t as [|x u]; cbn [opens]; [reflexivity|].
  destruct (N.eqb_spec x 10) as [->|Hx]; cbn [negb andb].
  - rewrite match_here_answer_mark_cons, lazy_plus_cons. reflexivity.
  - destruct (closes u) eqn:Hu.
    + destruct (closes_split u Hu) as (inner & post & -> & Hnl & Hcl).
      exists x, inner, post. split; [reflexivity|]. split; [|exact Hcl].
      apply not_elem_of_cons. split; [congruence|exact Hnl].
    + rewrite match_here_answer_mark_cons, (lazy_plus_none u x Hu). reflexivity.
Qed.

Lemma opens_span (inner post : str) (x : char) :
  10%N ∉ x :: inner -> opens (x :: inner ++ 125%N :: post) = true.
Proof.
  intros Hnl. apply not_elem_of_cons in Hnl as [Hx Hnl]. cbn [opens].
  destruct (N.eqb_spec x 10); [congruence|]. cbn [negb andb].
  apply closes_app. exact Hnl.
Qed.

Lemma sub_scan_no_match (c : char) (s : str) :
  match_here answer_mark (c :: s) = None ->
  re_sub answer_mark (c :: s) = c :: re_sub answer_mark s.
Proof. unfold re_sub. cbn [sub_scan]. intros ->. reflexivity. Qed.

(** Deleting the marks of [t] cannot make [t] close or open. *)
Lemma closes_opens_after_sub (n : nat) :
  forall t, length t <= n ->
    (closes (re_sub answer_mark t) = true -> closes t = true)
    /\ (opens (re_sub answer_mark t) = true -> opens t = true).
Proof.
  induction n as [|n IH]; intros t Hlen.
  { destruct t; [split; intros H; exact H | cbn [length] in Hlen; lia]. }
  destruct t as [|c t]; [split; intros H; exact H|].
  cbn [length] in Hlen.
  destruct (match_here answer_mark (c :: t)) as [m|] eqn:Hm.
  - assert (Hc : c = 123%N).
    { destruct (N.eq_dec c 123%N) as [E|E]; [exact E|].
      rewrite match_here_no_open in Hm by exact E. discriminate. }
    subst c. pose proof (match_here_opens t) as Ho.
    destruct (opens t); [|rewrite Ho in Hm; discriminate].
    destruct Ho as (x & inner & post & -> & Hnl & Hcl).
    split; intros _.
    + change (closes ((x :: inner) ++ 125%N :: post) = true).
      apply closes_app. exact Hnl.
    + change (closes ((x :: inner) ++ 125%N :: post) = true).
      apply closes_app. exact Hnl.
  - rewrite (sub_scan_no_match c t Hm).
    destruct (IH t ltac:(lia)) as [Hcloses _].
    split.
    + cbn [closes]. destruct (c =? 125)%N; [auto|].
      destruct (c =? 10)%N; [auto|exact Hcloses].
    + cbn [opens]. destruct (negb (c =? 10)%N); cbn [andb]; [exact Hcloses|auto].
Qed.

Lemma re_search_cons_none (c : char) (s : str) :
  match_here answer_mark (c :: s) = None ->
  re_search answer_mark s = None ->
  re_search answer_mark (c :: s) = None.
Proof. intros Hm Hs. cbn [re_search]. rewrite Hm, Hs. reflexivity. Qed.

Lemma re_search_after_sub (n : nat) :
  forall s, length s <= n ->
    re_search answer_mark (re_sub answer_mark s) = None.
Proof.
  induction n as [|n IH]; intros s Hlen.
  { destruct s; [reflexivity | cbn [length] in Hlen; lia]. }
  destruct s as [|c s]; [reflexivity|]. cbn [length] in Hlen.
  destruct (match_here answer_mark (c :: s)) as [m|] eqn:Hm.
  - assert (Hc : c = 123%N).
    { destruct (N.eq_dec c 123%N) as [E|E]; [exact E|].
      rewrite match_here_no_open in Hm by exact E. discriminate. }
    subst c. pose proof (match_here_opens s) as Ho.
    destruct (opens s); [|rewrite Ho in Hm; discriminate].
    destruct Ho as (x & inner & post & -> & Hnl & Hcl).
    rewrite (re_sub_span inner post x Hnl Hcl). apply IH.
    cbn [length] in Hlen. rewrite length_app in Hlen. cbn [length] in Hlen. lia.
  - rewrite (sub_scan_no_match c s Hm).
    apply re_search_cons_none; [|apply IH; lia].
    destruct (N.eq_dec c 123%N) as [->|E]; [|apply match_here_no_open; exact E].
    pose proof (match_here_opens s) as Ho.
    pose proof (match_here_opens (re_sub answer_mark s)) as Ho'.
    destruct (opens (re_sub answer_mark s)) eqn:Hopen; [|exact Ho'].
    destruct (closes_opens_after_sub (length s) s (le_n _)) as [_ Hback].
    rewrite (Hback Hopen) in Ho.
    destruct Ho as (x & inner & post & -> & Hnl & Hcl).
    rewrite (match_here_span inner post x Hnl Hcl) in Hm. discriminate.
Qed.

Lemma re_search_tail (c : char) (s : str) :
  re_search answer_mark (c :: s) = None ->
  match_here answer_mark (c :: s) = None /\ re_search answer_mark s = None.
Proof.
  cbn [re_search]. destruct (match_here answer_mark (c :: s)); [discriminate|].
  destruct (re_search answer_mark s) as [[before m]|]; [discriminate|].
  split; reflexivity.
Qed.

Lemma re_search_lstrip (p : char -> bool) (s : str) :
  re_search answer_mark s = None ->
  re_search answer_mark (lstrip_by p s) = None.
Proof.
  induction s as [|c s IH]; intros Hs; [exact Hs|].
  cbn [lstrip_by]. destruct (p c); [|exact Hs].
  apply IH. apply (re_search_tail c s Hs).
Qed.

Lemma match_here_prefix (a b : str) :
  match_here answer_mark (a ++ b) = None -> match_here answer_mark a = None.
Proof.
  destruct a as [|c t]; [reflexivity|]. cbn [app]. intros Hab.
  destruct (N.eq_dec c 123%N) as [->|E]; [|apply match_here_no_open; exact E].
  pose proof (match_here_opens t) as Ho.
  destruct (opens t); [|exact Ho].
  destruct Ho as (x & inner & post & -> & Hnl & Hcl).
  replace ((x :: inner ++ 125%N :: post) ++ b)
    with (x :: inner ++ 125%N :: (post ++ b)) in Hab
    by (cbn [app]; rewrite <- app_assoc; reflexivity).
  rewrite (match_here_span inner (post ++ b) x Hnl Hcl) in Hab. discriminate.
Qed.

Lemma re_search_prefix (a b : str) :
  re_search answer_mark (a ++ b) = None -> re_search answer_mark a = None.
Proof.
  induction a as [|c a IH]; intros Hab; [reflexivity|].
  cbn [app] in Hab. apply re_search_tail in Hab. destruct Hab as [Hm Hs].
  apply re_search_cons_none; [|apply IH; exact Hs].
  apply (match_here_prefix (c :: a) b). exact Hm.
Qed.

Lemma lstrip_by_suffix (p : char -> bool) (s : str) :
  exists a, s = a ++ lstrip_by p s.
Proof.
  induction s as [|c s IH]; [exists []; reflexivity|].
  cbn [lstrip_by]. destruct (p c); [|exists []; reflexivity].
  destruct IH as (a & Ha). exists (c :: a). cbn [app]. rewrite <- Ha. reflexivity.
Qed.

Lemma rstrip_by_prefix (p : char -> bool) (s : str) :
  exists b, s = rstrip_by p s ++ b.
Proof.
  unfold rstrip_by. destruct (lstrip_by_suffix p (rev s)) as (a & Ha).
  exists (rev a). rewrite <- rev_app_distr, <- Ha, rev_involutive. reflexivity.
Qed.

Lemma re_search_strip (s : str) :
  re_search answer_mark s = None -> re_search answer_mark (strip s) = None.
Proof.
  intros Hs. unfold strip, strip_by.
  destruct (rstrip_by_prefix isspace (lstrip_by isspace s)) as (b & Hb).
  apply (re_search_prefix _ b). rewrite <- Hb.
  apply re_search_lstrip. exact Hs.
Qed.

Lemma opened_question_mark_free (ty para : str) :
  mark_free (opened_question ty para).
Proof.
  unfold mark_free, opened_question, split_answer.
  destruct (re_search answer_mark
              (strip (re_sub_start question_start (strip para))))
    as [[before m]|] eqn:Hs; cbn [q_question]; apply re_search_strip.
  - apply (re_search_after_sub _ _ (le_n _)).
  - exact Hs.
Qed.

Lemma saved_mark_free (st : seg_state) :
  Forall mark_free (questions st) ->
  (forall q, current_question st = Some q -> mark_free q) ->
  Forall mark_free (saved_questions st).
Proof.
  intros Hqs Hcur. unfold saved_questions.
  destruct (current_question st) as [q|]; [|exact Hqs].
  apply Forall_app. split; [exact Hqs|]. constructor; [|constructor].
  apply Hcur. reflexivity.
Qed.

Lemma seg_loop_mark_free (paragraphs : list str) (st st' : seg_state) :
  Forall mark_free (questions st) ->
  (forall q, current_question st = Some q -> mark_free q) ->
  V102.seg_loop st paragraphs = Ok st' ->
  Forall mark_free (saved_questions st').
Proof.
  revert st. induction paragraphs as [|para rest IH]; intros st Hqs Hcur Hloop.
  - cbn in Hloop. injection Hloop as <-. apply saved_mark_free; assumption.
  - cbn [V102.seg_loop] in Hloop. rewrite seg_step_by_class in Hloop.
    destruct (classify para); cbn [bind] in Hloop.
    + refine (IH _ _ _ Hloop); assumption.
    + refine (IH _ _ _ Hloop); assumption.
    + refine (IH _ _ _ Hloop); cbn [questions current_question].
      * apply saved_mark_free; assumption.
      * intros q [= <-]. apply opened_question_mark_free.
    + destruct (current_question st) as [q|] eqn:Hopen; [|discriminate].
      cbn [bind] in Hloop.
      refine (IH _ _ _ Hloop); cbn [questions current_question]; [exact Hqs|].
      intros q' [= <-]. apply (Hcur q eq_refl).
    + refine (IH _ _ _ Hloop); assumption.
Qed.

(** X16: no stem of a returned record contains an answer mark any more:
    every brace span of the question line has been taken out of it. *)
Theorem stems_hold_no_answer_mark (paragraphs : list str) (qs : list question) :
  V102.extract_questions_from_docx paragraphs = Ok qs ->
  Forall mark_free qs.
Proof.
  unfold V102.extract_questions_from_docx. intros Hrun.
  destruct (V102.seg_loop seg_init paragraphs) as [st|e] eqn:Hloop;
    [|discriminate].
  cbn [bind] in Hrun. injection Hrun as <-. rewrite seg_finish_saved.
  apply (seg_loop_mark_free paragraphs seg_init st); [constructor| |exact Hloop].
  intros q [=].
Qed.

Lemma stems_hold_no_answer_mark_witness :
  Forall mark_free [ Question [] (u8 "Q }x") [] (u8 "{a") ].
Proof.
  apply (stems_hold_no_answer_mark [ u8 "1. Q{{a} {b}}x" ]).
  vm_compute. reflexivity.
Defined.

(** ** Shape of the answers *)

(** A property of single records that a new question has and that
    a further option keeps holds for all records returned. *)
Section RecordInvariant.

Variable P : question -> Prop.
Hypothesis opened : forall ty para, P (opened_question ty para).
Hypothesis kept : forall q o, P q -> P (with_option q o).

Lemma seg_loop_records (paragraphs : list str) (st st' : seg_state) :
  Forall P (saved_questions st) ->
  V102.seg_loop st paragraphs = Ok st' ->
  Forall P (saved_questions st').
Proof.
  revert st. induction paragraphs as [|para rest IH]; intros st Hst Hloop.
  - cbn in Hloop. injection Hloop as <-. exact Hst.
  - cbn [V102.seg_loop] in Hloop. rewrite seg_step_by_class in Hloop.
    destruct (classify para); cbn [bind] in Hloop;
      try (refine (IH _ _ Hloop); exact Hst).
    + refine (IH _ _ Hloop). unfold saved_questions at 1.
      cbn [questions current_question]. apply Forall_app. split; [exact Hst|].
      constructor; [apply opened|constructor].
    + destruct (current_question st) as [q|] eqn:Hopen; [|discriminate].
      cbn [bind] in Hloop. refine (IH _ _ Hloop).
      unfold saved_questions in *. cbn [questions current_question].
      rewrite Hopen in Hst. apply Forall_app in Hst as [Hqs Hq].
      apply Forall_app. split; [exact Hqs|].
      inversion Hq; subst. constructor; [apply kept; assumption|constructor].
Qed.

Lemma extracted_records (paragraphs : list str) (qs : list question) :
  V102.extract_questions_from_docx paragraphs = Ok qs -> Forall P qs.
Proof.
  unfold V102.extract_questions_from_docx. intros Hrun.
  destruct (V102.seg_loop seg_init paragraphs) as [st|e] eqn:Hloop;
    [|discriminate].
  cbn [bind] in Hrun. injection Hrun as <-. rewrite seg_finish_saved.
  apply (seg_loop_records paragraphs seg_init st); [constructor|exact Hloop].
Qed.

End RecordInvariant.

Lemma re_search_found (s before : str) (m : match_result) :
  re_search answer_mark s = Some (before, m) ->
  exists x inner post,
    m = ([[123%N]; x :: inner; [125%N]], post)
    /\ (10%N ∉ x :: inner) /\ (125%N ∉ inner).
Proof.
  revert before. induction s as [|c s IH]; intros before; cbn [re_search].
  - rewrite match_here_answer_mark_nil. discriminate.
  - destruct (match_here answer_mark (c :: s)) as [m0|] eqn:Hm.
    + intros [= <- <-].
      assert (Hc : c = 123%N).
      { destruct (N.eq_dec c 123%N) as [E|E]; [exact E|].
        rewrite match_here_no_open in Hm by exact E. discriminate. }
      subst c. pose proof (match_here_opens s) as Ho.
      destruct (opens s); [|rewrite Ho in Hm; discriminate].
      destruct Ho as (x & inner & post & -> & Hnl & Hcl).
      rewrite (match_here_span inner post x Hnl Hcl) in Hm.
      injection Hm as <-. exists x, inner, post. auto.
    + destruct (re_search answer_mark s) as [[before' m']|]; [|discriminate].
      intros [= <- <-]. apply (IH before'). reflexivity.
Qed.

Lemma opened_question_answer_shaped (ty para : str) :
  answer_shaped (opened_question ty para).
Proof.
  unfold answer_shaped, opened_question, split_answer.
  destruct (re_search answer_mark
              (strip (re_sub_start question_start (strip para))))
    as [[before m]|] eqn:Hs; cbn [q_answer]; [|left; reflexivity].
  destruct (re_search_found _ _ _ Hs) as (x & inner & post & -> & Hnl & Hcl).
  right. unfold segment. cbn [fst nth tail]. split; [discriminate|]. auto.
Qed.

(** X17: the answer of a returned record is empty (the question line had
    no brace span) or it is non-empty, holds no line feed and, behind its
    first character, no closing brace; it is stored as written, untrimmed
    and in its own case. *)
Theorem answers_are_shaped (paragraphs : list str) (qs : list question) :
  V102.extract_questions_from_docx paragraphs = Ok qs ->
  Forall answer_shaped qs.
Proof.
  apply extracted_records.
  - apply opened_question_answer_shaped.
  - intros q o Hq. exact Hq.
Qed.

Lemma answers_are_shaped_witness :
  Forall answer_shaped
    [ Question [] (u8 "Sky") [u8 "blue"] (u8 "} a ");
      Question [] (u8 "Sea") [] [] ].
Proof.
  apply (answers_are_shaped [ u8 "1. Sky{} a }"; u8 "A. blue"; u8 "2. Sea" ]).
  vm_compute. reflexivity.
Defined.
